(** * Supe-Cook backend: the recipe search service and the account service

    A shallow embedding of [src/main.py] (recipe catalog search over a
    SQLite file) and of [src/app/main.py] (accounts, bearer tokens and
    favorite recipes over two MongoDB collections), followed by the
    properties of the specification stated and proved on it.

    Layout: the Python [str] operations the handlers use, the search
    service, the account service, and then the lemmas and theorems. *)

From Stdlib Require Import List Ascii String Bool Arith NArith ZArith Lia Relations.
Import ListNotations.

Set Implicit Arguments.

(* ================================================================= *)
(** ** Python strings *)

(** A Python [str] is a sequence of Unicode code points.  [str.split],
    the substring test and equality are written out; [str.lower], whose
    result for a character depends on the Unicode tables and on the
    neighbours of the character, is an interface. *)
Module PyStr.

Definition code := N.

Definition str := list code.

Definition py (s : string) : str := map N_of_ascii (list_ascii_of_string s).
Arguments py : simpl never.

Definition str_eq_dec : forall a b : str, {a = b} + {a <> b} :=
  list_eq_dec N.eq_dec.

Definition str_eqb (a b : str) : bool :=
  if str_eq_dec a b then true else false.

Definition between (lo n hi : N) : bool := ((lo <=? n) && (n <=? hi))%N.

(** [str.isspace] on one code point, the separators of [str.split()]
    without arguments: TAB..CR, FS..US, SPACE, NEL, NBSP, OGHAM SPACE
    MARK, EN QUAD..HAIR SPACE, LINE and PARAGRAPH SEPARATOR, NARROW
    NO-BREAK SPACE, MEDIUM MATHEMATICAL SPACE, IDEOGRAPHIC SPACE. *)
Definition isspace (c : code) : bool :=
  (between 9 c 13 || between 28 c 32 || (c =? 133) || (c =? 160)
   || (c =? 5760) || between 8192 c 8202 || between 8232 c 8233
   || (c =? 8239) || (c =? 8287) || (c =? 12288))%N.

(** [s.split()]: maximal runs of non-whitespace characters, in order.
    [word] is the run read so far. *)
Fixpoint split_from (word s : str) : list str :=
  match s with
  | [] => match word with [] => [] | _ => [word] end
  | c :: rest =>
      if isspace c
      then match word with
           | [] => split_from [] rest
           | _ => word :: split_from [] rest
           end
      else split_from (word ++ [c]) rest
  end.

Definition split (s : str) : list str := split_from [] s.

(** [s.startswith(w)] *)
Fixpoint startswith (w s : str) : bool :=
  match w, s with
  | [], _ => true
  | _ :: _, [] => false
  | a :: w', b :: s' => if N.eq_dec a b then startswith w' s' else false
  end.

(** [w in s] for two strings: [w] occurs in [s] as a contiguous run. *)
Fixpoint contains (w s : str) : bool :=
  startswith w s ||
  match s with
  | [] => false
  | _ :: s' => contains w s'
  end.

(** [set(l)] for a list of strings, as the list of its distinct members;
    the handlers only ever test all of them. *)
Definition set (l : list str) : list str := nodup str_eq_dec l.

(** Truthiness of a string: [not s] holds for the empty string only. *)
Definition truthy (s : str) : bool :=
  match s with [] => false | _ :: _ => true end.

(** [s.lower()] *)
Class Lower := {
  lower : str -> str
}.

(** Lowering a text and splitting it gives the lowered words of the
    text: whitespace has no case, and it bounds the context that decides
    how a letter is lowered. *)
Class LowerSplit (T : Lower) : Prop := {
  lower_split : forall s : str, split (lower s) = map lower (split s)
}.

(** Lowering a lowered text changes nothing. *)
Class LowerIdem (T : Lower) : Prop := {
  lower_twice : forall s : str, lower (lower s) = lower s
}.

(** [str.lower] on texts of ASCII and Latin-1 characters, where it works
    character by character: A..Z and U+00C0..U+00DE without the
    multiplication sign U+00D7 move up by 32. *)
Definition lower_char (c : code) : code :=
  if between 65 c 90 || between 192 c 214 || between 216 c 222
  then (c + 32)%N
  else c.

Definition latin1_lower (s : str) : str := map lower_char s.

Definition latin1 : Lower := {| lower := latin1_lower |}.

End PyStr.
Import PyStr.

(* ================================================================= *)
(** ** The recipe search service ([src/main.py]) *)

Module Search.

(** One row of [SELECT * FROM recipes]; the ingredient list is stored as
    text. *)
Record row := {
  row_id : Z;
  row_name : str;
  row_ingredients : str;
  row_instructions : str
}.

(** The dictionary built for each row by [get_all_recipes]. *)
Record recipe := {
  id : Z;
  name : str;
  ingredients : list str;
  instructions : str
}.

(** An exception that reaches the [except] clause of [get_all_recipes]:
    a [sqlite3.OperationalError], which it names, or any other. *)
Inductive raised :=
| OperationalError (msg : str)
| OtherException.

(** What the handler finds at [DB_PATH]: no file, a file on which
    connecting or running the query raises, or the rows of the table. *)
Inductive dataset :=
| NoFile
| Failing (e : raised)
| Table (rows : list row).

(** [JSONResponse(status_code=..., content={"message": ...})] *)
Record JSONResponse := {
  status_code : nat;
  message : str
}.

(** A Python call either returns a value or lets an exception escape. *)
Inductive outcome (A : Type) :=
| Returns (a : A)
| Raises.
Arguments Raises {A}.

(** The internal helpers return either the recipes or a [JSONResponse]
    (told apart with [isinstance]). *)
Inductive listing :=
| Recipes (l : list recipe)
| Response (r : JSONResponse).

(** What an endpoint hands to the framework: a [JSONResponse], or the
    dictionary [{"results": ...}]. *)
Inductive reply :=
| Error (r : JSONResponse)
| Results (v : listing).

(** [eval] on a stored ingredient text: the value it denotes, which the
    data model of a recipe makes a list of strings, or the exception
    evaluating it raises. *)
Inductive evaluated :=
| Value (l : list str)
| EvalRaises (e : raised).

(** The list comprehension over the fetched rows: all the dictionaries,
    or the exception of the first row whose text does not evaluate. *)
Inductive built :=
| Built (l : list recipe)
| Aborted (e : raised).

Section Handlers.

Context {T : Lower}.

Variable py_eval : str -> evaluated.

Definition structure (r : row) : recipe + raised :=
  match py_eval (row_ingredients r) with
  | Value l =>
      inl {| id := row_id r; name := row_name r;
             ingredients := l; instructions := row_instructions r |}
  | EvalRaises e => inr e
  end.

Fixpoint structured_recipes (rows : list row) : built :=
  match rows with
  | [] => Built []
  | r :: rows' =>
      match structure r with
      | inr e => Aborted e
      | inl x =>
          match structured_recipes rows' with
          | Aborted e => Aborted e
          | Built xs => Built (x :: xs)
          end
      end
  end.

(** [except sqlite3.OperationalError as e]: the 500 payload for that
    class; any other exception goes on to the caller. *)
Definition except_clause (e : raised) : outcome listing :=
  match e with
  | OperationalError msg =>
      Returns (Response {| status_code := 500;
                           message := py "Database error: " ++ msg |})
  | OtherException => Raises
  end.

(** The whole body is inside [try]: the test of the file, the query and
    the evaluation of the rows. *)
Definition get_all_recipes (ds : dataset) : outcome listing :=
  match ds with
  | NoFile =>
      Returns (Response {| status_code := 404;
                           message := py "Database file not found." |})
  | Failing e => except_clause e
  | Table rows =>
      match structured_recipes rows with
      | Built l => Returns (Recipes l)
      | Aborted e => except_clause e
      end
  end.

Definition name_filter (query_words : list str) (r : recipe) : bool :=
  forallb (fun word => contains word (lower (name r))) query_words.

Definition search_recipes (query : str) (ds : dataset) : outcome listing :=
  match get_all_recipes ds with
  | Raises => Raises
  | Returns (Response r) => Returns (Response r)
  | Returns (Recipes recipes) =>
      let query_words := set (split (lower query)) in
      Returns (Recipes (filter (name_filter query_words) recipes))
  end.

Definition ingredient_filter (ingredient_words : list str) (r : recipe)
  : bool :=
  forallb
    (fun ingredient =>
       existsb (fun item => contains (lower ingredient) (lower item))
               (ingredients r))
    ingredient_words.

Definition search_recipes_by_ingredients (ingrs : list str) (ds : dataset)
  : outcome listing :=
  match get_all_recipes ds with
  | Raises => Raises
  | Returns (Response r) => Returns (Response r)
  | Returns (Recipes recipes) =>
      let ingredient_words := map lower ingrs in
      Returns (Recipes (filter (ingredient_filter ingredient_words) recipes))
  end.

(** [GET /search] *)
Definition search (query : str) (ds : dataset) : outcome reply :=
  if negb (truthy query)
  then Returns (Error {| status_code := 400;
                         message := py "Query parameter is required." |})
  else match search_recipes query ds with
       | Raises => Raises
       | Returns v => Returns (Results v)
       end.

(** [POST /search_by_ingredients] *)
Definition search_by_ingredients (request : list str) (ds : dataset)
  : outcome reply :=
  match request with
  | [] => Returns (Error {| status_code := 400;
                            message := py "Ingredients list is required." |})
  | _ :: _ =>
      match search_recipes_by_ingredients request ds with
      | Raises => Raises
      | Returns v => Returns (Results v)
      end
  end.

(** [GET /all_recipes] *)
Definition get_all (ds : dataset) : outcome reply :=
  match get_all_recipes ds with
  | Raises => Raises
  | Returns (Response r) => Returns (Error r)
  | Returns (Recipes l) => Returns (Results (Recipes l))
  end.

End Handlers.

End Search.

(* ================================================================= *)
(** ** The account service ([src/app/main.py]) *)

Module Account.

(** Times are seconds since the epoch; [timedelta(minutes=m)]. *)
Definition timedelta_minutes (m : Z) : Z := (m * 60)%Z.

Definition ACCESS_TOKEN_EXPIRE_MINUTES : Z := 30%Z.

(** The claims of a token: [{"sub": ..., "exp": ...}]. *)
Record payload := {
  sub : option str;
  exp : option Z
}.

(** The libraries the service calls: [passlib] (salted password hashes),
    [jose.jwt] (tokens signed with [SECRET_KEY] under [ALGORITHM]) and
    [bson] (object identifiers).  [pwd_hash salt p] is [None] where
    [pwd_context.hash] raises on the string [p], [pwd_verify p h] is
    [None] where [pwd_context.verify] raises (a password it refuses, a
    stored value it cannot identify), and [jwt_decode tok now] is [None]
    where [jwt.decode] raises [JWTError] at time [now]. *)
Class Libs := {
  Token : Type;
  Salt : Type;
  ObjectId : Type;
  oid_str : ObjectId -> str;
  pwd_hash : Salt -> str -> option str;
  pwd_verify : str -> str -> option bool;
  jwt_encode : payload -> Token;
  jwt_decode : Token -> Z -> option payload
}.

(** A token decodes to the claims it was made from until it expires. *)
Class LibsLaws (L : Libs) : Prop := {
  jwt_roundtrip :
    forall (p : payload) (e now : Z),
      exp p = Some e -> (now <= e)%Z ->
      jwt_decode (jwt_encode p) now = Some p
}.

(** A password verifies against each of its own hashes. *)
Class PasswordLaws (L : Libs) : Prop := {
  verify_own_hash :
    forall (s : Salt) (p h : str),
      pwd_hash s p = Some h -> pwd_verify p h = Some true
}.

(** Past its expiry a token is refused ([ExpiredSignatureError], a
    [JWTError]). *)
Class ExpiryLaw (L : Libs) : Prop := {
  jwt_expired :
    forall (p : payload) (e now : Z),
      exp p = Some e -> (e < now)%Z ->
      jwt_decode (jwt_encode p) now = None
}.

(** *** Request models *)

(** An optional field of a request body: left out, or given (JSON [null]
    is given as [None]); pydantic remembers which. *)
Inductive field :=
| Unset
| Given (v : option str).

Definition value (f : field) : option str :=
  match f with Unset => None | Given v => v end.

(** [class User(BaseModel)] *)
Record User := {
  name : str;
  email : str;
  password : field;
  profile_image : field
}.

(** [class FavoriteRecipe(BaseModel)] *)
Record FavoriteRecipe := {
  fav_image : str;
  fav_name : str;
  fav_ingredients : list str;
  fav_instructions : str
}.

(** [class Token(BaseModel)], the body of a successful login. *)
Record TokenModel {L : Libs} := {
  access_token : Token;
  token_type : str
}.

(** [OAuth2PasswordRequestForm] *)
Record LoginForm := {
  form_username : str;
  form_password : str
}.

(** *** Stored documents *)

(** The keys of a document of [users]. *)
Record user_fields := {
  u_name : str;
  u_email : str;
  u_password : str;
  u_profile_image : option str
}.

(** The keys of a document of [favorite_recipes]. *)
Record favorite_fields := {
  f_image : str;
  f_name : str;
  f_ingredients : list str;
  f_instructions : str;
  f_email : str
}.

(** A stored document: its ["_id"] and the other keys. *)
Record document {L : Libs} (A : Type) := {
  _id : ObjectId;
  keys : A
}.
Arguments _id {L A} d.
Arguments keys {L A} d.

(** A document after [serialize_document]: ["id"] holds the text of the
    identifier, ["_id"] is gone, the other keys are untouched. *)
Record serialized (A : Type) := {
  id : str;
  data : A
}.

Definition serialize_document {L : Libs} {A} (doc : document A)
  : serialized A :=
  {| id := oid_str (_id doc); data := keys doc |}.

Definition option_str_eqb (a b : option str) : bool :=
  match a, b with
  | None, None => true
  | Some x, Some y => str_eqb x y
  | _, _ => false
  end.

Definition user_fields_eqb (a b : user_fields) : bool :=
  str_eqb (u_name a) (u_name b) && str_eqb (u_email a) (u_email b)
  && str_eqb (u_password a) (u_password b)
  && option_str_eqb (u_profile_image a) (u_profile_image b).

(** *** Collections *)

(** A collection is the list of its documents in insertion order. *)
Section Collection.
Context {L : Libs} {A : Type}.

Definition collection := list (document A).

(** [find_one(query)]: the first document that matches. *)
Definition find_one (query : A -> bool) (c : collection)
  : option (document A) :=
  List.find (fun d => query (keys d)) c.

(** [find(query)] *)
Definition find_all (query : A -> bool) (c : collection) : collection :=
  filter (fun d => query (keys d)) c.

(** [insert_one(doc)] with the identifier drawn for it. *)
Definition insert_one (oid : ObjectId) (doc : A) (c : collection)
  : collection :=
  c ++ [{| _id := oid; keys := doc |}].

(** [update_one(query, {"$set": ...})]: the first match is rewritten;
    the count is [modified_count], 0 when nothing matches or when the
    rewritten document equals the stored one. *)
Fixpoint update_one (eqb : A -> A -> bool) (query : A -> bool)
         (upd : A -> A) (c : collection) : nat * collection :=
  match c with
  | [] => (0, [])
  | d :: c' =>
      if query (keys d)
      then if eqb (keys d) (upd (keys d))
           then (0, d :: c')
           else (1, {| _id := _id d; keys := upd (keys d) |} :: c')
      else let (n, c'') := update_one eqb query upd c' in (n, d :: c'')
  end.

(** [delete_one(query)]: the first match goes; the count is
    [deleted_count]. *)
Fixpoint delete_one (query : A -> bool) (c : collection)
  : nat * collection :=
  match c with
  | [] => (0, [])
  | d :: c' =>
      if query (keys d)
      then (1, c')
      else let (n, c'') := delete_one query c' in (n, d :: c'')
  end.

(** [delete_many(query)] *)
Definition delete_many (query : A -> bool) (c : collection) : collection :=
  filter (fun d => negb (query (keys d))) c.

End Collection.
Arguments collection {L} A.

(** The two collections of database [supercook]. *)
Record db {L : Libs} := {
  users_collection : collection user_fields;
  favorites_collection : collection favorite_fields
}.

(** *** Handlers as state transformers that may raise *)

(** What a handler raises: an [HTTPException], or an exception of a
    library that no handler catches: the [TypeError] of [passlib] on a
    secret that is not a string, its other refusals, and an exception of
    [requests.get] that is not a [RequestException]. *)
Inductive exn :=
| HTTPException (status_code : nat) (detail : str)
| TypeError
| PasslibError
| FetchError.

Inductive result (A : Type) :=
| Ok (a : A)
| Raise (e : exn).
Arguments Raise {A}.

(** A handler reads and writes the collections; what it wrote before it
    raised stays written. *)
Definition M {L : Libs} (A : Type) := db -> result A * db.

Definition ret {L : Libs} {A} (a : A) : M A := fun s => (Ok a, s).

Definition raise {L : Libs} {A} (e : exn) : M A := fun s => (Raise e, s).

Definition bind {L : Libs} {A B} (m : M A) (k : A -> M B) : M B :=
  fun s =>
    match m s with
    | (Ok a, s') => k a s'
    | (Raise e, s') => (Raise e, s')
    end.

Notation "x <- m ;; k" := (bind m (fun x => k))
  (at level 61, m at next level, right associativity).
Notation "m ;;; k" := (bind m (fun _ => k))
  (at level 61, right associativity).

Section Handlers.
Context {L : Libs}.

(** The operations of [users_collection] and [favorites_collection]
    on the database held by the handler. *)
Definition with_users {A} (f : collection user_fields ->
                               A * collection user_fields) : M A :=
  fun s =>
    let (a, c) := f (users_collection s) in
    (Ok a, {| users_collection := c;
              favorites_collection := favorites_collection s |}).

Definition with_favorites {A} (f : collection favorite_fields ->
                                   A * collection favorite_fields) : M A :=
  fun s =>
    let (a, c) := f (favorites_collection s) in
    (Ok a, {| users_collection := users_collection s;
              favorites_collection := c |}).

(** The queries [{"email": e}] on users, [{"email": e}] and
    [{"email": e, "name": n}] on favorites. *)
Definition user_email_is (e : str) (u : user_fields) : bool :=
  str_eqb (u_email u) e.

Definition fav_email_is (e : str) (f : favorite_fields) : bool :=
  str_eqb (f_email f) e.

Definition fav_email_name_is (e n : str) (f : favorite_fields) : bool :=
  str_eqb (f_email f) e && str_eqb (f_name f) n.

(** An answer of [requests.get]: its status and its [Content-Type]
    header, [None] when the answer has none. *)
Record http_response := {
  resp_status_code : nat;
  resp_content_type : option str
}.

(** What [requests.get] does on an address: it answers, it raises a
    [RequestException], or it raises something else. *)
Inductive fetched :=
| Answers (response : http_response)
| RequestException
| FetchRaises.

(** What a request brings from outside the program: the clock, the
    salt [passlib] draws, the identifier drawn for an inserted
    document, and what [requests.get] does on each address. *)
Record env := {
  now : Z;
  salt : Salt;
  new_oid : ObjectId;
  requests_get : str -> fetched
}.

Definition verify_password (plain_password hashed_password : str) : M bool :=
  match pwd_verify plain_password hashed_password with
  | Some verdict => ret verdict
  | None => raise PasslibError
  end.

(** [pwd_context.hash] raises [TypeError] on a secret that is not a
    string, and refuses some strings. *)
Definition get_password_hash (e : env) (password : option str) : M str :=
  match password with
  | Some p =>
      match pwd_hash (salt e) p with
      | Some hashed => ret hashed
      | None => raise PasslibError
      end
  | None => raise TypeError
  end.

(** [expires_delta or timedelta(...)]: a zero delta is falsy. *)
Definition create_access_token (e : env) (data : payload)
           (expires_delta : option Z) : Token :=
  let delta :=
    match expires_delta with
    | Some d => if (d =? 0)%Z
                then timedelta_minutes ACCESS_TOKEN_EXPIRE_MINUTES
                else d
    | None => timedelta_minutes ACCESS_TOKEN_EXPIRE_MINUTES
    end in
  let expire := (now e + delta)%Z in
  jwt_encode {| sub := sub data; exp := Some expire |}.

Definition get_current_user (e : env) (token : Token)
  : M (serialized user_fields) :=
  match jwt_decode token (now e) with
  | None => raise (HTTPException 401 (py "Invalid token"))
  | Some payload =>
      match sub payload with
      | None => raise (HTTPException 401 (py "Invalid credentials"))
      | Some user_email =>
          if negb (truthy user_email)
          then raise (HTTPException 401 (py "Invalid credentials"))
          else
            user <- with_users (fun c =>
                      (find_one (user_email_is user_email) c, c)) ;;
            match user with
            | None => raise (HTTPException 401 (py "User not found"))
            | Some doc => ret (serialize_document doc)
            end
      end
  end.

(** The test made on an answer: status 200 and ["image"] in the
    [Content-Type] header, taken as empty when missing. *)
Definition is_image (response : http_response) : bool :=
  (resp_status_code response =? 200)
  && contains (py "image")
              (match resp_content_type response with
               | Some t => t
               | None => []
               end).

(** Only [RequestException] is caught. *)
Definition check_image_url (e : env) (image_url : str) : M bool :=
  match requests_get e image_url with
  | Answers response => ret (is_image response)
  | RequestException => ret false
  | FetchRaises => raise FetchError
  end.

(** [POST /users/] *)
Definition create_user (e : env) (user : User) : M str :=
  existing <- with_users (fun c =>
                (find_one (user_email_is (email user)) c, c)) ;;
  match existing with
  | Some _ => raise (HTTPException 400 (py "Email already registered"))
  | None =>
      hashed <- get_password_hash e (value (password user)) ;;
      let user_dict :=
        {| u_name := name user; u_email := email user;
           u_password := hashed;
           u_profile_image := value (profile_image user) |} in
      with_users (fun c => (tt, insert_one (new_oid e) user_dict c)) ;;;
      ret (py "User created successfully")
  end.

(** [user.dict(exclude_unset=True)]: the required keys and the
    optional keys that were given; [P] is the type under ["password"],
    the request's value before hashing and the hash after it. *)
Record set_document (P : Type) := {
  set_name : str;
  set_email : str;
  set_password : option P;
  set_profile_image : option (option str)
}.

Definition dict_exclude_unset (user : User) : set_document (option str) :=
  {| set_name := name user;
     set_email := email user;
     set_password :=
       match password user with Given v => Some v | Unset => None end;
     set_profile_image :=
       match profile_image user with Given v => Some v | Unset => None end
  |}.

(** [{"$set": update_data}] on a stored user. *)
Definition apply_set (upd : set_document str) (u : user_fields)
  : user_fields :=
  {| u_name := set_name upd;
     u_email := set_email upd;
     u_password :=
       match set_password upd with Some h => h | None => u_password u end;
     u_profile_image :=
       match set_profile_image upd with
       | Some v => v
       | None => u_profile_image u
       end |}.

(** [profile_image and not check_image_url(profile_image)] *)
Definition image_refused (e : env) (profile_image : option str) : M bool :=
  match profile_image with
  | Some url =>
      if truthy url
      then accessible <- check_image_url e url ;; ret (negb accessible)
      else ret false
  | None => ret false
  end.

(** [PUT /users/], after [Depends(get_current_user)]. *)
Definition update_user (e : env) (user : User)
           (current_user : serialized user_fields) : M str :=
  if negb (str_eqb (u_email (data current_user)) (email user))
  then raise (HTTPException 403
                (py "You can only update your own profile"))
  else
    refused <- image_refused e (value (profile_image user)) ;;
    if refused : bool
    then raise (HTTPException 400
                  (py "Provided image URL is not accessible"))
    else
    let update_data := dict_exclude_unset user in
    hashed <- match set_password update_data with
              | Some p => h <- get_password_hash e p ;; ret (Some h)
              | None => ret None
              end ;;
    let update_data :=
      {| set_name := set_name update_data;
         set_email := set_email update_data;
         set_password := hashed;
         set_profile_image := set_profile_image update_data |} in
    modified_count <-
      with_users (update_one user_fields_eqb
                    (user_email_is (u_email (data current_user)))
                    (apply_set update_data)) ;;
    if modified_count =? 0
    then raise (HTTPException 404
                  (py "User not found or no changes made"))
    else ret (py "Profile updated successfully").

(** [POST /token] *)
Definition login_for_access_token (e : env) (form_data : LoginForm)
  : M TokenModel :=
  user <- with_users (fun c =>
            (find_one (user_email_is (form_username form_data)) c, c)) ;;
  match user with
  | None => raise (HTTPException 401 (py "Invalid email or password"))
  | Some doc =>
      verified <- verify_password (form_password form_data)
                                  (u_password (keys doc)) ;;
      if negb verified
      then raise (HTTPException 401 (py "Invalid email or password"))
      else
        let access_token :=
          create_access_token e
            {| sub := Some (u_email (keys doc)); exp := None |} None in
        ret {| access_token := access_token;
               token_type := py "bearer" |}
  end.

(** [GET /users/profile], after [Depends(get_current_user)]. *)
Definition get_user_profile (current_user : serialized user_fields)
  : M (serialized user_fields) :=
  ret current_user.

(** [DELETE /users/delete_account/], after [Depends(get_current_user)]. *)
Definition delete_user_account (current_user : serialized user_fields)
  : M str :=
  with_favorites (fun c =>
    (tt, delete_many (fav_email_is (u_email (data current_user))) c)) ;;;
  deleted_count <-
    with_users (delete_one
                  (user_email_is (u_email (data current_user)))) ;;
  if deleted_count =? 0
  then raise (HTTPException 404 (py "User not found"))
  else ret (py "User account and associated data deleted successfully").

(** [POST /recipes/], after [Depends(get_current_user)]. *)
Definition add_favorite_recipe (e : env) (recipe : FavoriteRecipe)
           (current_user : serialized user_fields) : M str :=
  let recipe_dict :=
    {| f_image := fav_image recipe; f_name := fav_name recipe;
       f_ingredients := fav_ingredients recipe;
       f_instructions := fav_instructions recipe;
       f_email := u_email (data current_user) |} in
  existing_recipe <-
    with_favorites (fun c =>
      (find_one (fav_email_name_is (u_email (data current_user))
                                   (f_name recipe_dict)) c, c)) ;;
  match existing_recipe with
  | Some _ =>
      raise (HTTPException 400
               (py "Recipe with this title already exists for the user"))
  | None =>
      with_favorites (fun c =>
        (tt, insert_one (new_oid e) recipe_dict c)) ;;;
      ret (py "Recipe added successfully")
  end.

(** [GET /get_recipes/], after [Depends(get_current_user)]. *)
Definition get_user_recipes (title : option str)
           (current_user : serialized user_fields)
  : M (list (serialized favorite_fields)) :=
  let query :=
    match title with
    | Some t =>
        if truthy t
        then fav_email_name_is (u_email (data current_user)) t
        else fav_email_is (u_email (data current_user))
    | None => fav_email_is (u_email (data current_user))
    end in
  found <- with_favorites (fun c => (find_all query c, c)) ;;
  ret (map serialize_document found).

(** [DELETE /delete_recipes/], after [Depends(get_current_user)]. *)
Definition delete_favorite_recipe (title : str)
           (current_user : serialized user_fields) : M str :=
  recipe <-
    with_favorites (fun c =>
      (find_one (fav_email_name_is (u_email (data current_user)) title) c,
       c)) ;;
  match recipe with
  | None =>
      raise (HTTPException 404
        (py "Recipe not found or you don't have permission to delete it"))
  | Some _ =>
      with_favorites (delete_one
        (fav_email_name_is (u_email (data current_user)) title)) ;;;
      ret (py "Recipe deleted successfully")
  end.

(** *** The routes *)

Inductive request :=
| POST_users (user : User)
| PUT_users (token : Token) (user : User)
| POST_token (form_data : LoginForm)
| GET_users_profile (token : Token)
| DELETE_users_delete_account (token : Token)
| POST_recipes (token : Token) (recipe : FavoriteRecipe)
| GET_get_recipes (token : Token) (title : option str)
| DELETE_delete_recipes (token : Token) (title : str).

Inductive response :=
| Message (m : str)
| Bearer (t : TokenModel)
| Profile (u : serialized user_fields)
| Favorites (l : list (serialized favorite_fields)).

(** A route that declares [Depends(get_current_user)] runs it first. *)
Definition depends_current_user {A} (e : env) (token : Token)
           (handler : serialized user_fields -> M A) : M A :=
  current_user <- get_current_user e token ;;
  handler current_user.

Definition fmap {A B} (f : A -> B) (m : M A) : M B :=
  a <- m ;; ret (f a).

Definition route (e : env) (r : request) : M response :=
  match r with
  | POST_users user => fmap Message (create_user e user)
  | PUT_users token user =>
      fmap Message (depends_current_user e token (update_user e user))
  | POST_token form_data =>
      fmap Bearer (login_for_access_token e form_data)
  | GET_users_profile token =>
      fmap Profile (depends_current_user e token get_user_profile)
  | DELETE_users_delete_account token =>
      fmap Message (depends_current_user e token delete_user_account)
  | POST_recipes token recipe =>
      fmap Message
           (depends_current_user e token (add_favorite_recipe e recipe))
  | GET_get_recipes token title =>
      fmap Favorites
           (depends_current_user e token (get_user_recipes title))
  | DELETE_delete_recipes token title =>
      fmap Message
           (depends_current_user e token (delete_favorite_recipe title))
  end.

(** The service handles its requests one after the other, starting
    from empty collections. *)
Definition empty_db : db :=
  {| users_collection := []; favorites_collection := [] |}.

Fixpoint serve (trace : list (env * request)) (s : db) : db :=
  match trace with
  | [] => s
  | (e, r) :: trace' => serve trace' (snd (route e r s))
  end.

End Handlers.

End Account.

(* ================================================================= *)
(** ** Concrete data for the examples *)

Module Samples.

(** A reader of plain list literals such as ['salt', 'egg']: quoted
    strings without escapes between brackets, separated by commas.  It
    stands in for [eval] in the examples: on the texts used there it gives
    what Python gives, a list or an exception that is not an
    [OperationalError] (the [SyntaxError] of a literal cut short). *)
Inductive reader :=
| Before
| Expect (items : list str)
| Quoted (q : code) (acc : str) (items : list str)
| After (items : list str)
| Closed (items : list str)
| Rejected.

Definition is_char (c : code) (a : ascii) : bool := N.eqb c (N_of_ascii a).

Definition read_char (st : reader) (c : code) : reader :=
  let space := is_char c " " in
  let quote := is_char c "'" || is_char c (ascii_of_nat 34) in
  match st with
  | Before =>
      if space then Before
      else if is_char c "[" then Expect [] else Rejected
  | Expect items =>
      if space then Expect items
      else if is_char c "]" then Closed items
      else if quote then Quoted c [] items else Rejected
  | Quoted q acc items =>
      if N.eqb c q then After (items ++ [acc])
      else if is_char c "\" || isspace c && negb space then Rejected
      else Quoted q (acc ++ [c]) items
  | After items =>
      if space then After items
      else if is_char c "," then Expect items
      else if is_char c "]" then Closed items else Rejected
  | Closed items => if space then Closed items else Rejected
  | Rejected => Rejected
  end.

Definition plain_list_literal (text : str) : Search.evaluated :=
  match fold_left read_char text Before with
  | Closed items => Search.Value items
  | _ => Search.EvalRaises Search.OtherException
  end.

(** [str.lower] on texts of ASCII and Greek letters, with the rule of the
    final sigma: a capital sigma after a letter and not before one
    becomes the final form.  It stands in for [str.lower] in the examples
    with Greek text. *)
Definition is_letter (c : code) : bool :=
  between 65 c 90 || between 97 c 122 || between 913 c 929
  || between 931 c 937 || between 945 c 969.

Definition capital (c : code) : bool :=
  between 65 c 90 || between 913 c 929 || between 931 c 937.

Definition greek_lower_char (c : code) : code :=
  if capital c then (c + 32)%N else c.

Definition before_letter (s : str) : bool :=
  match s with
  | [] => false
  | c :: _ => is_letter c
  end.

(** The lowered character at a position: a sigma by its neighbours, any
    other character on its own. *)
Definition lowered_at (after_letter : bool) (c : code) (rest : str) : code :=
  if (c =? 931)%N
  then if after_letter && negb (before_letter rest) then 962%N else 963%N
  else greek_lower_char c.

Fixpoint greek_lower_from (after_letter : bool) (s : str) : str :=
  match s with
  | [] => []
  | c :: rest =>
      lowered_at after_letter c rest :: greek_lower_from (is_letter c) rest
  end.

Definition greek : Lower := {| lower := greek_lower_from false |}.

(** KOTAS and KOTASOUPA in Greek capitals. *)
Definition kotas : str := [922; 927; 932; 913; 931]%N.

Definition kotasoupa : str := [922; 927; 932; 913; 931; 927; 933; 928; 913]%N.

Definition kotasoupa_row : Search.row :=
  {| Search.row_id := 4; Search.row_name := kotasoupa;
     Search.row_ingredients := py "['x']";
     Search.row_instructions := py "Boil." |}.

Definition kotasoupa_recipe : Search.recipe :=
  {| Search.id := 4; Search.name := kotasoupa;
     Search.ingredients := [py "x"];
     Search.instructions := py "Boil." |}.

(** A recipe that lists KOTASOUPA as its only ingredient. *)
Definition with_kotasoupa_row : Search.row :=
  {| Search.row_id := 5; Search.row_name := py "Pie";
     Search.row_ingredients := py "['" ++ kotasoupa ++ py "']";
     Search.row_instructions := py "Bake." |}.

Definition with_kotasoupa : Search.recipe :=
  {| Search.id := 5; Search.name := py "Pie";
     Search.ingredients := [kotasoupa];
     Search.instructions := py "Bake." |}.

Definition soup : Search.row :=
  {| Search.row_id := 1; Search.row_name := py "Chicken Noodle SOUP";
     Search.row_ingredients := py "['chicken breast', 'Sea Salt', 'egg noodles']";
     Search.row_instructions := py "Simmer." |}.

Definition salad : Search.row :=
  {| Search.row_id := 2; Search.row_name := py "Chicken salad";
     Search.row_ingredients := py "['chicken', 'lettuce']";
     Search.row_instructions := py "Toss." |}.


Definition soup_recipe : Search.recipe :=
  {| Search.id := 1; Search.name := py "Chicken Noodle SOUP";
     Search.ingredients :=
       [py "chicken breast"; py "Sea Salt"; py "egg noodles"];
     Search.instructions := py "Simmer." |}.

Definition salad_recipe : Search.recipe :=
  {| Search.id := 2; Search.name := py "Chicken salad";
     Search.ingredients := [py "chicken"; py "lettuce"];
     Search.instructions := py "Toss." |}.

(** A toy instance of the libraries.  A hash is a dollar sign, the salt
    and the password reversed; a password with a NUL character is
    refused, by the hash and by the verification, and a stored value that
    does not start with the dollar sign and a salt is not identified.  A
    token is its claims and a flag telling whether the signature is the
    server's. *)
Definition has_nul (password : str) : bool :=
  existsb (fun c => (c =? 0)%N) password.

Definition toy_digest (salt : ascii) (password : str) : str :=
  36%N :: N_of_ascii salt :: rev password.

Definition toy_hash (salt : ascii) (password : str) : option str :=
  if has_nul password then None else Some (toy_digest salt password).

Definition toy_verify (password hashed : str) : option bool :=
  if has_nul password then None
  else match hashed with
       | 36%N :: _ :: digest => Some (str_eqb digest (rev password))
       | _ => None
       end.

Record toy_token := {
  claims : Account.payload;
  signed : bool
}.

Definition toy_decode (t : toy_token) (now : Z) : option Account.payload :=
  if signed t
  then match Account.exp (claims t) with
       | Some e => if (now <=? e)%Z then Some (claims t) else None
       | None => Some (claims t)
       end
  else None.

#[export] Instance toy_libs : Account.Libs := {|
  Account.Token := toy_token;
  Account.Salt := ascii;
  Account.ObjectId := nat;
  Account.oid_str := fun n => repeat 111%N n;
  Account.pwd_hash := toy_hash;
  Account.pwd_verify := toy_verify;
  Account.jwt_encode := fun p => {| claims := p; signed := true |};
  Account.jwt_decode := toy_decode
|}.

Definition quiet (now : Z) (salt : ascii) (oid : nat) : Account.env :=
  {| Account.now := now; Account.salt := salt; Account.new_oid := oid;
     Account.requests_get := fun _ => Account.RequestException |}.

Definition ann : Account.User :=
  {| Account.name := py "Ann"; Account.email := py "ann@example.org";
     Account.password := Account.Given (Some (py "secret"));
     Account.profile_image := Account.Unset |}.

Definition ann_doc : Account.document Account.user_fields :=
  {| Account._id := 7;
     Account.keys :=
       {| Account.u_name := py "Ann";
          Account.u_email := py "ann@example.org";
          Account.u_password := toy_digest "s" (py "secret");
          Account.u_profile_image := None |} |}.

Definition pie : Account.FavoriteRecipe :=
  {| Account.fav_image := py "pie.png"; Account.fav_name := py "Pie";
     Account.fav_ingredients := [py "apple"; py "flour"];
     Account.fav_instructions := py "Bake." |}.

Definition pie_doc (oid : nat) (owner : str)
  : Account.document Account.favorite_fields :=
  {| Account._id := oid;
     Account.keys :=
       {| Account.f_image := py "pie.png"; Account.f_name := py "Pie";
          Account.f_ingredients := [py "apple"; py "flour"];
          Account.f_instructions := py "Bake.";
          Account.f_email := owner |} |}.

Definition ann_token : toy_token :=
  {| claims := {| Account.sub := Some (py "ann@example.org");
                  Account.exp := Some 2000%Z |};
     signed := true |}.

Definition ann_as_bob : Account.User :=
  {| Account.name := py "Ann"; Account.email := py "bob@example.org";
     Account.password := Account.Unset;
     Account.profile_image := Account.Unset |}.

Definition anna : Account.User :=
  {| Account.name := py "Anna"; Account.email := py "ann@example.org";
     Account.password := Account.Unset;
     Account.profile_image := Account.Given (Some (py "http://img/a.png")) |}.

Definition anna_doc : Account.document Account.user_fields :=
  {| Account._id := 7;
     Account.keys :=
       {| Account.u_name := py "Anna";
          Account.u_email := py "ann@example.org";
          Account.u_password := toy_digest "s" (py "secret");
          Account.u_profile_image := Some (py "http://img/a.png") |} |}.

(** A network on which every address answers 200 with a PNG. *)
Definition online (now : Z) (salt : ascii) (oid : nat) : Account.env :=
  {| Account.now := now; Account.salt := salt; Account.new_oid := oid;
     Account.requests_get := fun _ =>
       Account.Answers
         {| Account.resp_status_code := 200;
            Account.resp_content_type := Some (py "image/png") |} |}.

(** Favorites of Ann and of Bob while no user record is left. *)
Definition orphans : Account.db :=
  {| Account.users_collection := [];
     Account.favorites_collection :=
       [pie_doc 1 (py "ann@example.org"); pie_doc 2 (py "bob@example.org")] |}.

Definition ann_only : Account.db :=
  {| Account.users_collection := [ann_doc];
     Account.favorites_collection := [] |}.

(** A token that was not signed by the server. *)
Definition forged_token : toy_token :=
  {| claims := {| Account.sub := Some (py "ann@example.org");
                  Account.exp := Some 2000%Z |};
     signed := false |}.

(** Ann with one favorite, beside a favorite of Bob. *)
Definition ann_with_pie : Account.db :=
  {| Account.users_collection := [ann_doc];
     Account.favorites_collection :=
       [pie_doc 1 (py "ann@example.org"); pie_doc 2 (py "bob@example.org")] |}.

Definition ann_rekeyed : Account.User :=
  {| Account.name := py "Ann"; Account.email := py "ann@example.org";
     Account.password := Account.Given (Some (py "hunter2"));
     Account.profile_image := Account.Unset |}.

(** A network on which fetching raises something that is not a
    [RequestException]. *)
Definition broken (now : Z) (salt : ascii) (oid : nat) : Account.env :=
  {| Account.now := now; Account.salt := salt; Account.new_oid := oid;
     Account.requests_get := fun _ => Account.FetchRaises |}.

(** A sign-up whose password holds a NUL character. *)
Definition cy : Account.User :=
  {| Account.name := py "Cy"; Account.email := py "cy@example.org";
     Account.password := Account.Given (Some [112; 0; 119]%N);
     Account.profile_image := Account.Unset |}.

(** A user whose stored password is not a hash. *)
Definition dee_doc : Account.document Account.user_fields :=
  {| Account._id := 9;
     Account.keys :=
       {| Account.u_name := py "Dee";
          Account.u_email := py "dee@example.org";
          Account.u_password := py "plain";
          Account.u_profile_image := None |} |}.

Definition dee_only : Account.db :=
  {| Account.users_collection := [dee_doc];
     Account.favorites_collection := [] |}.

Definition not_found_payload : Search.JSONResponse :=
  {| Search.status_code := 404;
     Search.message := py "Database file not found." |}.

End Samples.

(* ================================================================= *)
(** ** The vocabulary of the specification *)

Module Spec.

(** [sub] occurs in [s] as a contiguous run of characters. *)
Definition substring (sub s : str) : Prop :=
  exists pre post, s = pre ++ sub ++ post.

(** Two strings that differ in letter case only. *)
Definition same_ignoring_case {T : Lower} (a b : str) : Prop :=
  lower a = lower b.

(** [s] contains [w] as a case-insensitive substring. *)
Definition contains_ignoring_case {T : Lower} (w s : str) : Prop :=
  exists sub, substring sub s /\ same_ignoring_case sub w.

Definition blank (c : code) : Prop := isspace c = true.
Definition solid (c : code) : Prop := isspace c = false.

Definition ends_blank (pre : str) : Prop :=
  pre = [] \/ exists p c, pre = p ++ [c] /\ blank c.

Definition starts_blank (post : str) : Prop :=
  post = [] \/ exists c p, post = c :: p /\ blank c.

(** [t] is a whitespace-delimited token of [q]: a non-empty run without
    whitespace, with whitespace or the end of [q] on either side. *)
Definition token (q t : str) : Prop :=
  t <> [] /\ Forall solid t /\
  exists pre post, q = pre ++ t ++ post /\ ends_blank pre /\ starts_blank post.

(** [result] is exactly the members of [l] that satisfy [P], as they
    stand in [l]. *)
Definition selects {A} (P : A -> Prop) (l result : list A) : Prop :=
  exists f : A -> bool,
    (forall a, f a = true <-> P a) /\ result = filter f l.

(** The name of a recipe contains every token of the query. *)
Definition name_matches {T : Lower} (query : str) (r : Search.recipe)
  : Prop :=
  forall t, token query t -> contains_ignoring_case t (Search.name r).

(** Each requested ingredient occurs in some entry of the recipe's list. *)
Definition ingredients_match {T : Lower} (requested : list str)
           (r : Search.recipe) : Prop :=
  forall ingredient, In ingredient requested ->
    exists item, In item (Search.ingredients r) /\
                 contains_ignoring_case ingredient item.

(** The lowered name of a recipe contains the lowered form of every
    token of the query. *)
Definition lowered_name_contains {T : Lower} (query : str)
           (r : Search.recipe) : Prop :=
  forall t, token query t -> substring (lower t) (lower (Search.name r)).

(** The lowered form of each requested ingredient occurs in the lowered
    form of some entry of the recipe's list. *)
Definition lowered_entry_contains {T : Lower} (requested : list str)
           (r : Search.recipe) : Prop :=
  forall ingredient, In ingredient requested ->
    exists item, In item (Search.ingredients r) /\
                 substring (lower ingredient) (lower item).



(** [d] is the first document of [c] that matches [query]: the one
    [find_one], [update_one] and [delete_one] work on. *)
Definition first_match {L : Account.Libs} {A} (query : A -> bool)
           (c : Account.collection A) (d : Account.document A) : Prop :=
  exists pre post,
    c = pre ++ d :: post /\ query (Account.keys d) = true /\
    forall x, In x pre -> query (Account.keys x) = false.

(** Some stored user has this email. *)
Definition registered {L : Account.Libs} (s : Account.db) (e : str) : Prop :=
  exists d, In d (Account.users_collection s) /\
            Account.u_email (Account.keys d) = e.

(** The user a login or a token for email [e] refers to. *)
Definition user_of {L : Account.Libs} (s : Account.db) (e : str)
           (d : Account.document Account.user_fields) : Prop :=
  first_match (Account.user_email_is e) (Account.users_collection s) d.

(** The stored user [new] is [old] after a profile update with body
    [user]: the name and the email of the body, the hash of the password
    when one is given and the old hash otherwise, the image of the body
    when it is given and the old image otherwise. *)
Definition profile_after (hash : str -> option str) (user : Account.User)
           (old new : Account.user_fields) : Prop :=
  Account.u_name new = Account.name user /\
  Account.u_email new = Account.email user /\
  match Account.password user with
  | Account.Unset => Account.u_password new = Account.u_password old
  | Account.Given v =>
      exists p, v = Some p /\ hash p = Some (Account.u_password new)
  end /\
  match Account.profile_image user with
  | Account.Unset => Account.u_profile_image new = Account.u_profile_image old
  | Account.Given v => Account.u_profile_image new = v
  end.

(** The body passes the checks made before the update is sent: the image
    address, when there is one, answers with an image, and the password,
    when given, is a string that the library hashes. *)
Definition acceptable {L : Account.Libs} (e : Account.env)
           (user : Account.User) : Prop :=
  match Account.value (Account.profile_image user) with
  | Some url =>
      url = [] \/
      exists response,
        Account.requests_get e url = Account.Answers response /\
        Account.is_image response = true
  | None => True
  end /\
  match Account.password user with
  | Account.Unset => True
  | Account.Given None => False
  | Account.Given (Some p) =>
      Account.pwd_hash (Account.salt e) p <> None
  end.

(** What the test of the image address gives: it refuses, it lets the
    update go on, or the fetch raises. *)
Definition image_verdict {L : Account.Libs} (e : Account.env)
           (profile_image : option str) : Account.result bool :=
  match profile_image with
  | Some (c :: url) =>
      match Account.requests_get e (c :: url) with
      | Account.Answers response =>
          Account.Ok (negb (Account.is_image response))
      | Account.RequestException => Account.Ok true
      | Account.FetchRaises => Account.Raise Account.FetchError
      end
  | _ => Account.Ok false
  end.

(** The document an accepted update sends under ["$set"]. *)
Definition sent_update {L : Account.Libs} (e : Account.env)
           (user : Account.User) : Account.set_document str :=
  {| Account.set_name := Account.name user;
     Account.set_email := Account.email user;
     Account.set_password :=
       match Account.password user with
       | Account.Given (Some p) => Account.pwd_hash (Account.salt e) p
       | _ => None
       end;
     Account.set_profile_image :=
       match Account.profile_image user with
       | Account.Given v => Some v
       | Account.Unset => None
       end |}.

(** The owner and the name of a stored favorite. *)
Definition fav_key {L : Account.Libs}
           (d : Account.document Account.favorite_fields) : str * str :=
  (Account.f_email (Account.keys d), Account.f_name (Account.keys d)).

(** No two favorites have the same owner and name. *)
Definition favorites_unique {L : Account.Libs} (s : Account.db) : Prop :=
  NoDup (map fav_key (Account.favorites_collection s)).

(** A handler that keeps the favorites unique when they were. *)
Definition keeps_unique {L : Account.Libs} {A} (m : Account.M A) : Prop :=
  forall s, favorites_unique s -> favorites_unique (snd (m s)).

(** The caller already has a favorite of this name. *)
Definition has_favorite {L : Account.Libs} (s : Account.db)
           (owner name : str) : Prop :=
  exists d, In d (Account.favorites_collection s) /\
            Account.f_email (Account.keys d) = owner /\
            Account.f_name (Account.keys d) = name.

(** No two stored users have the same email. *)
Definition users_unique {L : Account.Libs} (s : Account.db) : Prop :=
  NoDup (map (fun d => Account.u_email (Account.keys d))
             (Account.users_collection s)).

(** Every favorite belongs to a stored user. *)
Definition no_orphans {L : Account.Libs} (s : Account.db) : Prop :=
  forall d, In d (Account.favorites_collection s) ->
            registered s (Account.f_email (Account.keys d)).

(** The token a request carries, for the routes that declare
    [Depends(get_current_user)]. *)
Definition token_of {L : Account.Libs} (r : Account.request)
  : option Account.Token :=
  match r with
  | Account.POST_users _ | Account.POST_token _ => None
  | Account.PUT_users t _ | Account.GET_users_profile t
  | Account.DELETE_users_delete_account t | Account.POST_recipes t _
  | Account.GET_get_recipes t _ | Account.DELETE_delete_recipes t _ => Some t
  end.

(** The email a request acts for: that of the user its token
    authenticates, if it carries one that does. *)
Definition caller_of {L : Account.Libs} (e : Account.env)
           (r : Account.request) (s : Account.db) : option str :=
  match token_of r with
  | None => None
  | Some t =>
      match fst (Account.get_current_user e t s) with
      | Account.Ok u => Some (Account.u_email (Account.data u))
      | Account.Raise _ => None
      end
  end.

(** What one request may do to the database, and for whom. *)
Inductive effect {L : Account.Libs} (s s' : Account.db)
  : option str -> Prop :=
| effect_none (who : option str) :
    s' = s -> effect s s' who
| effect_sign_up (d : Account.document Account.user_fields) :
    ~ registered s (Account.u_email (Account.keys d)) ->
    s' = {| Account.users_collection := Account.users_collection s ++ [d];
            Account.favorites_collection := Account.favorites_collection s |} ->
    effect s s' None
| effect_update (caller : str)
                (pre post : Account.collection Account.user_fields)
                (doc : Account.document Account.user_fields)
                (new : Account.user_fields) :
    Account.users_collection s = pre ++ doc :: post ->
    Account.u_email (Account.keys doc) = caller ->
    Account.u_email new = caller ->
    s' = {| Account.users_collection :=
              pre ++ {| Account._id := Account._id doc;
                        Account.keys := new |} :: post;
            Account.favorites_collection := Account.favorites_collection s |} ->
    effect s s' (Some caller)
| effect_delete_account (caller : str) :
    s' = {| Account.users_collection :=
              snd (Account.delete_one (Account.user_email_is caller)
                     (Account.users_collection s));
            Account.favorites_collection :=
              Account.delete_many (Account.fav_email_is caller)
                (Account.favorites_collection s) |} ->
    effect s s' (Some caller)
| effect_add_favorite (caller : str)
                      (d : Account.document Account.favorite_fields) :
    registered s caller ->
    Account.f_email (Account.keys d) = caller ->
    ~ has_favorite s caller (Account.f_name (Account.keys d)) ->
    s' = {| Account.users_collection := Account.users_collection s;
            Account.favorites_collection :=
              Account.favorites_collection s ++ [d] |} ->
    effect s s' (Some caller)
| effect_delete_favorite (caller name : str) :
    s' = {| Account.users_collection := Account.users_collection s;
            Account.favorites_collection :=
              snd (Account.delete_one (Account.fav_email_name_is caller name)
                     (Account.favorites_collection s)) |} ->
    effect s s' (Some caller).

(** What is stored under other emails than [caller]. *)
Definition users_of_others {L : Account.Libs} (caller : str)
           (s : Account.db) : Account.collection Account.user_fields :=
  filter (fun d => negb (Account.user_email_is caller (Account.keys d)))
         (Account.users_collection s).

Definition favorites_of_others {L : Account.Libs} (caller : str)
           (s : Account.db) : Account.collection Account.favorite_fields :=
  filter (fun d => negb (Account.fav_email_is caller (Account.keys d)))
         (Account.favorites_collection s).

End Spec.

(* ================================================================= *)
(** ** Lemmas on strings *)

Section StrLemmas.
Import Spec Samples.

Lemma between_spec (lo n hi : N) :
  between lo n hi = true <-> (lo <= n <= hi)%N.
Proof.
  unfold between. now rewrite andb_true_iff, !N.leb_le.
Qed.

Lemma lower_char_cases (c : code) :
  (lower_char c = (c + 32)%N /\
   ((65 <= c <= 90) \/ (192 <= c <= 214) \/ (216 <= c <= 222))%N) \/
  (lower_char c = c /\
   ~ ((65 <= c <= 90) \/ (192 <= c <= 214) \/ (216 <= c <= 222))%N).
Proof.
  unfold lower_char.
  destruct (between 65 c 90 || between 192 c 214 || between 216 c 222)
    eqn:H.
  - left. split; [reflexivity|].
    rewrite !orb_true_iff, !between_spec in H. tauto.
  - right. split; [reflexivity|].
    rewrite !orb_false_iff in H. destruct H as [[H1 H2] H3].
    rewrite <- !between_spec. intros [H|[H|H]]; congruence.
Qed.

(** Proves [isspace x = false] from the bounds at hand. *)
Ltac isspace_false :=
  unfold isspace, between;
  repeat apply orb_false_intro;
  rewrite ?andb_false_iff, ?N.leb_gt, ?N.eqb_neq; lia.

Lemma isspace_lower_char (c : code) : isspace (lower_char c) = isspace c.
Proof.
  destruct (lower_char_cases c) as [[E H]|[E _]]; rewrite E;
    [|reflexivity].
  transitivity false; [|symmetry]; isspace_false.
Qed.

Lemma lower_char_idem (c : code) : lower_char (lower_char c) = lower_char c.
Proof.
  destruct (lower_char_cases c) as [[E H]|[E _]]; rewrite !E;
    [|reflexivity].
  destruct (lower_char_cases (c + 32)%N) as [[_ H']|[E' _]];
    [lia | exact E'].
Qed.

Lemma latin1_lower_idem (s : str) :
  latin1_lower (latin1_lower s) = latin1_lower s.
Proof.
  unfold latin1_lower. rewrite map_map.
  apply map_ext. intro c. apply lower_char_idem.
Qed.

Lemma str_eqb_eq (a b : str) : str_eqb a b = true <-> a = b.
Proof.
  unfold str_eqb. destruct (str_eq_dec a b); split; congruence.
Qed.

Lemma str_eqb_refl (a : str) : str_eqb a a = true.
Proof. now apply str_eqb_eq. Qed.

Lemma str_eqb_neq (a b : str) : str_eqb a b = false <-> a <> b.
Proof.
  unfold str_eqb. destruct (str_eq_dec a b); split; congruence.
Qed.

Lemma startswith_spec (w s : str) :
  startswith w s = true <-> exists post, s = w ++ post.
Proof.
  revert s. induction w as [|a w IH]; intros s; simpl.
  - split; [exists s; reflexivity | reflexivity].
  - destruct s as [|b s].
    + split; [discriminate | intros [post H]; discriminate].
    + destruct (N.eq_dec a b) as [->|Hab].
      * rewrite IH. split; intros [post H]; exists post.
        -- now rewrite H.
        -- now injection H.
      * split; [discriminate | intros [post H]; injection H; congruence].
Qed.

Lemma contains_spec (w s : str) : contains w s = true <-> substring w s.
Proof.
  unfold substring. induction s as [|b s IH].
  - simpl. rewrite orb_false_r, startswith_spec. split.
    + intros [post H]. exists [], post. exact H.
    + intros [pre [post H]]. symmetry in H.
      apply app_eq_nil in H as [-> H]. exists post. now symmetry.
  - simpl. rewrite orb_true_iff, startswith_spec, IH. split.
    + intros [[post H] | [pre [post H]]].
      * exists [], post. exact H.
      * exists (b :: pre), post. simpl. now rewrite H.
    + intros [[|c pre] [post H]].
      * left. exists post. exact H.
      * right. exists pre, post. now injection H.
Qed.

(** On Latin-1 text, lowering first and splitting gives the lowered
    tokens. *)
Lemma split_from_lower (s w : str) :
  split_from (latin1_lower w) (latin1_lower s)
  = map latin1_lower (split_from w s).
Proof.
  revert w. induction s as [|c rest IH]; intros w.
  - destruct w; reflexivity.
  - simpl. rewrite isspace_lower_char. destruct (isspace c).
    + destruct w as [|a w].
      * apply (IH []).
      * simpl. f_equal. apply (IH []).
    + rewrite <- IH. f_equal. unfold latin1_lower. now rewrite map_app.
Qed.

Lemma latin1_lower_split : LowerSplit latin1.
Proof. constructor. intro s. apply (split_from_lower s []). Qed.

Lemma latin1_lower_twice : LowerIdem latin1.
Proof. constructor. intro s. apply latin1_lower_idem. Qed.

Lemma solid_not_blank (c : code) : solid c -> blank c -> False.
Proof. unfold solid, blank. congruence. Qed.

Lemma solid_middle (a b : str) (c : code) :
  Forall solid (a ++ c :: b) -> blank c -> False.
Proof.
  intros H Hc. apply Forall_app in H as [_ H].
  inversion H; subst. eauto using solid_not_blank.
Qed.

Lemma ends_blank_solid (pre rest : str) :
  Forall solid (pre ++ rest) -> ends_blank pre -> pre = [].
Proof.
  intros H [->|[p [c [-> Hc]]]]; [reflexivity|].
  rewrite <- app_assoc in H. simpl in H.
  destruct (solid_middle _ _ H Hc).
Qed.

Lemma starts_blank_solid (pre post : str) :
  Forall solid (pre ++ post) -> starts_blank post -> post = [].
Proof.
  intros H [->|[c [p [-> Hc]]]]; [reflexivity|].
  destruct (solid_middle _ _ H Hc).
Qed.

Lemma ends_blank_prepend (x pre : str) (c : code) :
  blank c -> ends_blank pre -> ends_blank (x ++ c :: pre).
Proof.
  intros Hc [->|[p [c' [-> Hc']]]]; right.
  - exists x, c. split; [reflexivity | exact Hc].
  - exists (x ++ c :: p), c'. split; [|exact Hc'].
    now rewrite <- app_assoc.
Qed.

Lemma ends_blank_strip (x l : str) (c : code) :
  ends_blank (x ++ c :: l) -> ends_blank l.
Proof.
  intros [H|[p [c' [H Hc']]]].
  - destruct x; discriminate.
  - destruct l as [|b l0]; [left; reflexivity|].
    assert (Hne : b :: l0 <> []) by discriminate.
    destruct (exists_last Hne) as [l' [a E]]. rewrite E in *.
    right. exists l', a. split; [reflexivity|].
    change (x ++ c :: l' ++ [a]) with (x ++ (c :: l') ++ [a]) in H.
    rewrite app_assoc in H. apply app_inj_tail in H as [_ ->]. exact Hc'.
Qed.

Lemma token_word (w post : str) :
  w <> [] -> Forall solid w -> starts_blank post -> token (w ++ post) w.
Proof.
  intros Hne Hw Hpost. split; [exact Hne|]. split; [exact Hw|].
  exists [], post. split; [reflexivity|]. split; [left; reflexivity|exact Hpost].
Qed.

Lemma token_skip (x rest t : str) (c : code) :
  blank c -> token rest t -> token (x ++ c :: rest) t.
Proof.
  intros Hc (Hne & Ht & pre & post & -> & Hpre & Hpost).
  split; [exact Hne|]. split; [exact Ht|].
  exists (x ++ c :: pre), post. split.
  - now rewrite <- app_assoc.
  - split; [now apply ends_blank_prepend | exact Hpost].
Qed.

(** A string without whitespace has itself as its only token. *)
Lemma token_solid (w t : str) : Forall solid w -> token w t -> t = w.
Proof.
  intros Hw (_ & _ & pre & post & E & Hpre & Hpost). subst w.
  assert (pre = []) as -> by (eapply ends_blank_solid; eassumption).
  simpl in *.
  assert (post = []) as -> by (eapply starts_blank_solid; eassumption).
  now rewrite app_nil_r.
Qed.

(** A token of [w ++ c :: rest], [w] without whitespace and [c] a
    whitespace: [w] itself, or a token of [rest]. *)
Lemma token_split (w rest t : str) (c : code) :
  Forall solid w -> blank c -> token (w ++ c :: rest) t ->
  (t = w /\ w <> []) \/ token rest t.
Proof.
  intros Hw Hc (Hne & Ht & pre & post & E & Hpre & Hpost).
  apply app_eq_app in E as [l [[E1 E2]|[E1 E2]]].
  - subst w.
    assert (pre = []) as -> by (eapply ends_blank_solid; eassumption).
    simpl in *. left.
    apply app_eq_app in E2 as [l2 [[E3 E4]|[E3 E4]]].
    + destruct l2 as [|x l2].
      * rewrite app_nil_r in E3. subst l. now split.
      * injection E4 as <- _. subst t.
        destruct (solid_middle _ _ Ht Hc).
    + destruct l2 as [|x l2].
      * rewrite app_nil_r in E3. subst l. now split.
      * exfalso. subst l post.
        destruct Hpost as [H|[c' [p [H Hc']]]]; [discriminate|].
        injection H as <- _. destruct (solid_middle _ _ Hw Hc').
  - right. destruct l as [|x l]; simpl in E2.
    + destruct t as [|y t]; [congruence|].
      injection E2 as <- _. inversion Ht; subst.
      destruct (solid_not_blank H1 Hc).
    + injection E2 as <- E2. subst pre.
      split; [exact Hne|]. split; [exact Ht|].
      exists l, post. split; [exact E2|].
      split; [eapply ends_blank_strip; eassumption | exact Hpost].
Qed.

Lemma split_from_sound (s w t : str) :
  Forall solid w -> In t (split_from w s) -> token (w ++ s) t.
Proof.
  revert w. induction s as [|c rest IH]; intros w Hw Hin.
  - destruct w as [|a w]; [destruct Hin|].
    destruct Hin as [<-|[]].
    apply token_word; [discriminate | exact Hw | left; reflexivity].
  - simpl in Hin. destruct (isspace c) eqn:Hc.
    + assert (Hrest : In t (split_from [] rest) -> token (w ++ c :: rest) t).
      { intro H. apply token_skip; [exact Hc|]. now apply (IH []). }
      destruct w as [|a w]; [now apply Hrest|].
      destruct Hin as [<-|Hin]; [|now apply Hrest].
      apply token_word; [discriminate | exact Hw |].
      right. now exists c, rest.
    + replace (w ++ c :: rest) with ((w ++ [c]) ++ rest)
        by now rewrite <- app_assoc.
      apply IH; [|exact Hin].
      apply Forall_app. split; [exact Hw|]. now constructor.
Qed.

Lemma split_from_complete (s w t : str) :
  Forall solid w -> token (w ++ s) t -> In t (split_from w s).
Proof.
  revert w. induction s as [|c rest IH]; intros w Hw Htok.
  - rewrite app_nil_r in Htok.
    assert (Ht : t <> []) by apply Htok.
    apply token_solid in Htok; [|exact Hw]. subst t.
    destruct w; [congruence | now left].
  - simpl. destruct (isspace c) eqn:Hc.
    + apply token_split in Htok as [[-> Hne]|Hrest]; try assumption.
      * destruct w; [congruence | now left].
      * destruct w; [|right]; now apply (IH []).
    + apply IH.
      * apply Forall_app. split; [exact Hw|]. now constructor.
      * now rewrite <- app_assoc.
Qed.

(** [split] lists exactly the whitespace-delimited tokens. *)
Lemma split_spec (q t : str) : In t (split q) <-> token q t.
Proof.
  split.
  - apply (split_from_sound q (w := [])). constructor.
  - apply (split_from_complete q (w := [])). constructor.
Qed.

Lemma split_blank (q : str) : Forall blank q -> split q = [].
Proof.
  unfold split. induction q as [|c q IH]; intros H; [reflexivity|].
  inversion H; subst. simpl.
  match goal with Hb : blank c |- _ => rewrite Hb end. now apply IH.
Qed.

(** Splitting at a whitespace: the words before it, then the words
    after it. *)
Lemma split_from_app_blank (a b w : str) (c : code) :
  isspace c = true ->
  split_from w (a ++ c :: b) = split_from w a ++ split b.
Proof.
  intros Hc. revert w. induction a as [|x a IH]; intros w; simpl.
  - rewrite Hc. now destruct w.
  - destruct (isspace x).
    + destruct w; [apply IH | simpl; f_equal; apply IH].
    + apply IH.
Qed.

Lemma split_from_solid (a w : str) :
  Forall solid a ->
  split_from w a = match w ++ a with [] => [] | _ :: _ => [w ++ a] end.
Proof.
  intros Ha. revert w. induction Ha as [|x a Hx _ IH]; intros w; simpl.
  - rewrite app_nil_r. now destruct w.
  - unfold solid in Hx. rewrite Hx, IH, <- app_assoc. reflexivity.
Qed.

(** A text has no whitespace, or a first one. *)
Lemma first_blank (s : str) :
  Forall solid s \/
  exists a c b, s = a ++ c :: b /\ Forall solid a /\ blank c.
Proof.
  induction s as [|x s IH]; [left; constructor|].
  destruct (isspace x) eqn:Hx.
  - right. exists [], x, s. repeat split; [constructor | exact Hx].
  - destruct IH as [IH|(a & c & b & -> & Ha & Hc)].
    + left. now constructor.
    + right. exists (x :: a), c, b. repeat split; [|exact Hc].
      now constructor.
Qed.

(** *** The lowering with the final sigma satisfies the laws *)

Lemma capital_spec (c : code) :
  capital c = true <->
  ((65 <= c <= 90) \/ (913 <= c <= 929) \/ (931 <= c <= 937))%N.
Proof.
  unfold capital. rewrite !orb_true_iff, !between_spec. tauto.
Qed.

Lemma is_letter_spec (c : code) :
  is_letter c = true <->
  ((65 <= c <= 90) \/ (97 <= c <= 122) \/ (913 <= c <= 929) \/
   (931 <= c <= 937) \/ (945 <= c <= 969))%N.
Proof.
  unfold is_letter. rewrite !orb_true_iff, !between_spec. tauto.
Qed.

Lemma blank_not_letter (c : code) : blank c -> is_letter c = false.
Proof.
  intros Hc. apply not_true_is_false. intros H.
  apply is_letter_spec in H.
  assert (Hs : isspace c = false) by isspace_false.
  unfold blank in Hc. congruence.
Qed.

Lemma blank_not_capital (c : code) : blank c -> capital c = false.
Proof.
  intros Hc. apply not_true_is_false. intros H.
  apply capital_spec in H.
  assert (Hs : isspace c = false) by isspace_false.
  unfold blank in Hc. congruence.
Qed.

Lemma greek_lower_from_cons (f : bool) (c : code) (rest : str) :
  greek_lower_from f (c :: rest) =
  lowered_at f c rest :: greek_lower_from (is_letter c) rest.
Proof. reflexivity. Qed.

Lemma lowered_at_blank (f : bool) (c : code) (rest : str) :
  blank c -> lowered_at f c rest = c.
Proof.
  intros Hc. pose proof (blank_not_capital Hc) as Hcap.
  unfold lowered_at, greek_lower_char. fold (capital c). rewrite Hcap.
  destruct (N.eqb_spec c 931) as [->|_]; [discriminate Hcap | reflexivity].
Qed.

Lemma isspace_lowered_at (f : bool) (c : code) (rest : str) :
  isspace (lowered_at f c rest) = isspace c.
Proof.
  unfold lowered_at, greek_lower_char. fold (capital c).
  destruct (N.eqb_spec c 931) as [->|_].
  - now destruct (f && negb (before_letter rest)).
  - destruct (capital c) eqn:Hcap; [|reflexivity].
    apply capital_spec in Hcap.
    transitivity false; [|symmetry]; isspace_false.
Qed.

Lemma capital_lowered_at (f : bool) (c : code) (rest : str) :
  capital (lowered_at f c rest) = false.
Proof.
  apply not_true_is_false. intros H. apply capital_spec in H.
  revert H. unfold lowered_at, greek_lower_char. fold (capital c).
  destruct (N.eqb_spec c 931) as [->|_].
  - destruct (f && negb (before_letter rest)); lia.
  - destruct (capital c) eqn:Hcap.
    + apply capital_spec in Hcap. lia.
    + intros H. apply capital_spec in H. congruence.
Qed.

(** A whitespace bounds the context: the text before it and the text
    after it are lowered each on its own. *)
Lemma greek_lower_from_blank (f : bool) (a b : str) (c : code) :
  blank c ->
  greek_lower_from f (a ++ c :: b) =
  greek_lower_from f a ++ c :: greek_lower_from false b.
Proof.
  intros Hc. revert f. induction a as [|x a IH]; intros f.
  - simpl app. rewrite greek_lower_from_cons, (lowered_at_blank _ _ Hc).
    now rewrite (blank_not_letter Hc).
  - simpl app. rewrite !greek_lower_from_cons, IH. simpl app. f_equal.
    unfold lowered_at. destruct a as [|y a]; [|reflexivity].
    simpl. now rewrite (blank_not_letter Hc).
Qed.

Lemma greek_lower_from_solid (f : bool) (a : str) :
  Forall solid a -> Forall solid (greek_lower_from f a).
Proof.
  intros Ha. revert f. induction Ha as [|x a Hx _ IH]; intros f.
  - constructor.
  - rewrite greek_lower_from_cons. constructor; [|apply IH].
    unfold solid in *. now rewrite isspace_lowered_at.
Qed.

Lemma split_greek_solid (a : str) :
  Forall solid a ->
  split (greek_lower_from false a) = map (greek_lower_from false) (split a).
Proof.
  intros Ha. unfold split.
  rewrite (split_from_solid [] (greek_lower_from_solid false Ha)).
  rewrite (split_from_solid [] Ha). simpl app.
  now destruct a.
Qed.

Lemma split_greek (n : nat) (s : str) :
  List.length s <= n ->
  split (greek_lower_from false s) = map (greek_lower_from false) (split s).
Proof.
  revert s. induction n as [|n IH]; intros s Hn.
  - destruct s; [reflexivity | simpl in Hn; lia].
  - destruct (first_blank s) as [Hs|(a & c & b & -> & Ha & Hc)].
    + now apply split_greek_solid.
    + rewrite (greek_lower_from_blank _ _ _ Hc). unfold split at 1 2.
      rewrite !(split_from_app_blank _ _ _ _ Hc), map_app.
      f_equal; [now apply split_greek_solid|].
      apply IH. rewrite length_app in Hn. simpl in Hn. lia.
Qed.

Lemma greek_lower_split : LowerSplit greek.
Proof. constructor. intro s. now apply (@split_greek (List.length s)). Qed.

Lemma greek_lower_from_lowered (f : bool) (s : str) :
  Forall (fun c => capital c = false) s -> greek_lower_from f s = s.
Proof.
  intros Hs. revert f. induction Hs as [|x s Hx _ IH]; intros f.
  - reflexivity.
  - rewrite greek_lower_from_cons, IH. f_equal.
    unfold lowered_at, greek_lower_char. fold (capital x). rewrite Hx.
    destruct (N.eqb_spec x 931) as [->|_]; [discriminate Hx | reflexivity].
Qed.

Lemma greek_lower_from_no_capital (f : bool) (s : str) :
  Forall (fun c => capital c = false) (greek_lower_from f s).
Proof.
  revert f. induction s as [|x s IH]; intros f; [constructor|].
  rewrite greek_lower_from_cons. constructor; [|apply IH].
  apply capital_lowered_at.
Qed.

Lemma greek_lower_twice : LowerIdem greek.
Proof.
  constructor. intro s. simpl.
  apply greek_lower_from_lowered, greek_lower_from_no_capital.
Qed.

End StrLemmas.

(* ================================================================= *)
(** ** The recipe search service: properties *)

Section SearchProperties.
Import Spec Search.

Context {T : Lower}.

Variable py_eval : str -> evaluated.

Lemma filter_all {A} (f : A -> bool) (l : list A) :
  (forall a, In a l -> f a = true) -> filter f l = l.
Proof.
  induction l as [|a l IH]; intros H; [reflexivity|].
  simpl. rewrite (H a (or_introl eq_refl)). f_equal.
  apply IH. intros b Hb. apply H. now right.
Qed.

(** The test of [search_recipes] decides "the lowered name contains the
    lowered form of every token of the query". *)
Lemma name_filter_lowered (LS : LowerSplit T) (query : str) (r : recipe) :
  name_filter (set (split (lower query))) r = true <->
  lowered_name_contains query r.
Proof.
  unfold name_filter, lowered_name_contains, set.
  rewrite forallb_forall. split.
  - intros H t Ht. apply contains_spec. apply H.
    apply nodup_In. rewrite lower_split. apply in_map.
    now apply split_spec.
  - intros H w Hw. apply nodup_In in Hw. rewrite lower_split in Hw.
    apply in_map_iff in Hw as (t & <- & Ht).
    apply contains_spec. apply H. now apply split_spec.
Qed.

(** The test of [search_recipes_by_ingredients] decides "the lowered form
    of each requested ingredient occurs in the lowered form of some entry
    of the list". *)
Lemma ingredient_filter_lowered (LI : LowerIdem T) (requested : list str)
      (r : recipe) :
  ingredient_filter (map lower requested) r = true <->
  lowered_entry_contains requested r.
Proof.
  unfold ingredient_filter, lowered_entry_contains.
  rewrite forallb_forall. split.
  - intros H ing Hing.
    specialize (H (lower ing) (in_map lower _ _ Hing)).
    apply existsb_exists in H as (item & Hitem & Hc).
    rewrite lower_twice in Hc. exists item. split; [exact Hitem|].
    now apply contains_spec.
  - intros H w Hw. apply in_map_iff in Hw as (ing & <- & Hing).
    destruct (H ing Hing) as (item & Hitem & Hc).
    apply existsb_exists. exists item. split; [exact Hitem|].
    rewrite lower_twice. now apply contains_spec.
Qed.


(** C1, as amended: on a loaded catalog, [GET /search] answers 400 to the
    empty query and otherwise returns exactly the recipes whose lowered
    name contains, as a substring, the lowered form of every
    whitespace-delimited token of the query.  Lowering is taken to
    commute with the split in words, as [str.lower] does. *)
Theorem search_by_name_lowered (LS : LowerSplit T) (ds : dataset)
        (recipes : list recipe) (query : str) :
  get_all_recipes py_eval ds = Returns (Recipes recipes) ->
  (query = [] ->
   search py_eval query ds =
   Returns (Error {| status_code := 400;
                     message := py "Query parameter is required." |})) /\
  (query <> [] ->
   exists result,
     search py_eval query ds = Returns (Results (Recipes result)) /\
     selects (lowered_name_contains query) recipes result).
Proof.
  intros Hcat. split.
  - intros ->. reflexivity.
  - intros Hq. destruct query as [|c q]; [congruence|].
    unfold search, search_recipes. simpl truthy. cbv iota beta. simpl negb.
    cbv iota. rewrite Hcat. eexists. split; [reflexivity|].
    exists (name_filter (set (split (lower (c :: q))))).
    split; [|reflexivity]. intro r. now apply name_filter_lowered.
Qed.

(** C2, as amended: on a loaded catalog, [POST /search_by_ingredients]
    answers 400 to the empty list and otherwise returns exactly the
    recipes in which, for each requested ingredient, the lowered form of
    at least one entry of the ingredient list contains the lowered form
    of the requested ingredient as a substring.  Lowering a lowered text
    is taken to change nothing, as with [str.lower]. *)
Theorem search_by_ingredients_lowered (LI : LowerIdem T) (ds : dataset)
        (recipes : list recipe) (request : list str) :
  get_all_recipes py_eval ds = Returns (Recipes recipes) ->
  (request = [] ->
   search_by_ingredients py_eval request ds =
   Returns (Error {| status_code := 400;
                     message := py "Ingredients list is required." |})) /\
  (request <> [] ->
   exists result,
     search_by_ingredients py_eval request ds
     = Returns (Results (Recipes result)) /\
     selects (lowered_entry_contains request) recipes result).
Proof.
  intros Hcat. split.
  - intros ->. reflexivity.
  - intros Hq. destruct request as [|i request]; [congruence|].
    unfold search_by_ingredients, search_recipes_by_ingredients.
    rewrite Hcat. eexists. split; [reflexivity|].
    exists (ingredient_filter (map lower (i :: request))).
    split; [|reflexivity]. intro r. now apply ingredient_filter_lowered.
Qed.


(** C10: a query that is not empty but holds only whitespace passes the
    emptiness check, splits into no token, and gets the whole catalog.
    Lowering is taken to commute with the split in words, as [str.lower]
    does. *)
Theorem search_blank_query_returns_all (LS : LowerSplit T) (ds : dataset)
        (recipes : list recipe) (query : str) :
  query <> [] -> Forall blank query ->
  get_all_recipes py_eval ds = Returns (Recipes recipes) ->
  truthy query = true /\
  split (lower query) = [] /\
  search py_eval query ds = Returns (Results (Recipes recipes)).
Proof.
  intros Hq Hblank Hcat.
  assert (Hsplit : split (lower query) = []).
  { rewrite lower_split, split_blank; [reflexivity | exact Hblank]. }
  destruct query as [|c q]; [congruence|].
  split; [reflexivity|]. split; [exact Hsplit|].
  unfold search, search_recipes. simpl truthy. simpl negb. cbv iota.
  rewrite Hcat, Hsplit. simpl set.
  rewrite filter_all; [reflexivity|]. intros r _. reflexivity.
Qed.

End SearchProperties.

(** The theorems above at the sample catalogs, with the lowering of
    Latin-1 text and with the lowering that has the final sigma. *)
Lemma search_by_name_witness :
  LowerSplit latin1 /\
  Search.get_all_recipes Samples.plain_list_literal
    (Search.Table [Samples.soup; Samples.salad])
  = Search.Returns (Search.Recipes [Samples.soup_recipe; Samples.salad_recipe])
  /\ (exists result,
      @Search.search latin1 Samples.plain_list_literal (py "soup  CHICKEN")
        (Search.Table [Samples.soup; Samples.salad])
      = Search.Returns (Search.Results (Search.Recipes result)) /\
      Spec.selects (@Spec.lowered_name_contains latin1 (py "soup  CHICKEN"))
        [Samples.soup_recipe; Samples.salad_recipe] result) /\
  LowerSplit Samples.greek /\
  exists result,
    @Search.search Samples.greek Samples.plain_list_literal Samples.kotas
      (Search.Table [Samples.kotasoupa_row])
    = Search.Returns (Search.Results (Search.Recipes result)) /\
    Spec.selects (@Spec.lowered_name_contains Samples.greek Samples.kotas)
      [Samples.kotasoupa_recipe] result.
Proof.
  split; [exact latin1_lower_split|]. split; [reflexivity|]. split.
  - apply (@search_by_name_lowered latin1 Samples.plain_list_literal
             latin1_lower_split
             (Search.Table [Samples.soup; Samples.salad])
             [Samples.soup_recipe; Samples.salad_recipe]
             (py "soup  CHICKEN")); [reflexivity | discriminate].
  - split; [exact greek_lower_split|].
    apply (@search_by_name_lowered Samples.greek Samples.plain_list_literal
             greek_lower_split (Search.Table [Samples.kotasoupa_row])
             [Samples.kotasoupa_recipe] Samples.kotas);
      [reflexivity | discriminate].
Defined.

(** C1 as first stated fails: with the final sigma, the name KOTASOUPA
    holds the query KOTAS letter for letter, yet its lowered form does not
    contain the lowered query, and the recipe is not returned. *)
Lemma search_by_name_misses_verbatim_token :
  Search.get_all_recipes Samples.plain_list_literal
    (Search.Table [Samples.kotasoupa_row])
  = Search.Returns (Search.Recipes [Samples.kotasoupa_recipe]) /\
  Spec.substring Samples.kotas (Search.name Samples.kotasoupa_recipe) /\
  @Spec.name_matches Samples.greek Samples.kotas Samples.kotasoupa_recipe /\
  @Search.search Samples.greek Samples.plain_list_literal Samples.kotas
    (Search.Table [Samples.kotasoupa_row])
  = Search.Returns (Search.Results (Search.Recipes [])).
Proof.
  assert (Hsub : Spec.substring Samples.kotas
                   (Search.name Samples.kotasoupa_recipe)).
  { exists [], [927; 933; 928; 913]%N. reflexivity. }
  split; [reflexivity|]. split; [exact Hsub|]. split; [|reflexivity].
  intros t Ht. apply token_solid in Ht.
  - subst t. exists Samples.kotas. split; [exact Hsub | reflexivity].
  - repeat constructor.
Qed.

Lemma search_by_ingredients_witness :
  LowerIdem latin1 /\
  Search.get_all_recipes Samples.plain_list_literal
    (Search.Table [Samples.soup; Samples.salad])
  = Search.Returns (Search.Recipes [Samples.soup_recipe; Samples.salad_recipe])
  /\ (exists result,
      @Search.search_by_ingredients latin1 Samples.plain_list_literal
        [py "salt"; py "egg"] (Search.Table [Samples.soup; Samples.salad])
      = Search.Returns (Search.Results (Search.Recipes result)) /\
      Spec.selects (@Spec.lowered_entry_contains latin1 [py "salt"; py "egg"])
        [Samples.soup_recipe; Samples.salad_recipe] result) /\
  LowerIdem Samples.greek /\
  exists result,
    @Search.search_by_ingredients Samples.greek Samples.plain_list_literal
      [Samples.kotas] (Search.Table [Samples.with_kotasoupa_row])
    = Search.Returns (Search.Results (Search.Recipes result)) /\
    Spec.selects (@Spec.lowered_entry_contains Samples.greek [Samples.kotas])
      [Samples.with_kotasoupa] result.
Proof.
  split; [exact latin1_lower_twice|]. split; [reflexivity|]. split.
  - apply (@search_by_ingredients_lowered latin1 Samples.plain_list_literal
             latin1_lower_twice
             (Search.Table [Samples.soup; Samples.salad])
             [Samples.soup_recipe; Samples.salad_recipe]
             [py "salt"; py "egg"]); [reflexivity | discriminate].
  - split; [exact greek_lower_twice|].
    apply (@search_by_ingredients_lowered Samples.greek
             Samples.plain_list_literal greek_lower_twice
             (Search.Table [Samples.with_kotasoupa_row])
             [Samples.with_kotasoupa] [Samples.kotas]);
      [reflexivity | discriminate].
Defined.

(** C2 as first stated fails: the entry KOTASOUPA holds the requested
    ingredient KOTAS letter for letter, yet the recipe is not returned. *)
Lemma search_by_ingredients_misses_verbatim_entry :
  Search.get_all_recipes Samples.plain_list_literal
    (Search.Table [Samples.with_kotasoupa_row])
  = Search.Returns (Search.Recipes [Samples.with_kotasoupa]) /\
  @Spec.ingredients_match Samples.greek [Samples.kotas]
    Samples.with_kotasoupa /\
  @Search.search_by_ingredients Samples.greek Samples.plain_list_literal
    [Samples.kotas] (Search.Table [Samples.with_kotasoupa_row])
  = Search.Returns (Search.Results (Search.Recipes [])).
Proof.
  split; [reflexivity|]. split; [|reflexivity].
  intros ing [<-|[]]. exists Samples.kotasoupa. split; [now left|].
  exists Samples.kotas. split; [|reflexivity].
  exists [], [927; 933; 928; 913]%N. reflexivity.
Qed.

Section SearchSamples.

#[local] Existing Instance latin1.



Lemma search_blank_query_witness :
  py "  " <> [] /\ Forall Spec.blank (py "  ") /\
  Search.search Samples.plain_list_literal (py "  ")
    (Search.Table [Samples.soup; Samples.salad])
  = Search.Returns (Search.Results
      (Search.Recipes [Samples.soup_recipe; Samples.salad_recipe])).
Proof.
  assert (Hne : py "  " <> []) by discriminate.
  assert (Hb : Forall Spec.blank (py "  "))
    by (repeat constructor).
  split; [exact Hne|]. split; [exact Hb|].
  exact (proj2 (proj2
    (@search_blank_query_returns_all latin1 Samples.plain_list_literal
       latin1_lower_split
       (Search.Table [Samples.soup; Samples.salad])
       [Samples.soup_recipe; Samples.salad_recipe] (py "  ")
       Hne Hb eq_refl))).
Defined.

(** The searches of the specification's examples, run on the sample
    catalog. *)
Example search_chicken_soup :
  Search.search Samples.plain_list_literal (py "Chicken Soup")
    (Search.Table [Samples.soup; Samples.salad])
  = Search.Returns (Search.Results (Search.Recipes [Samples.soup_recipe])).
Proof. reflexivity. Qed.

Example search_salt_egg :
  Search.search_by_ingredients Samples.plain_list_literal
    [py "salt"; py "EGG"] (Search.Table [Samples.soup; Samples.salad])
  = Search.Returns (Search.Results (Search.Recipes [Samples.soup_recipe])).
Proof. reflexivity. Qed.

Example search_missing_file :
  Search.search Samples.plain_list_literal (py "soup") Search.NoFile
  = Search.Returns (Search.Results (Search.Response
      {| Search.status_code := 404;
         Search.message := py "Database file not found." |})).
Proof. reflexivity. Qed.

End SearchSamples.

(* ================================================================= *)
(** ** The account service: properties *)

Section Collections.
Import Spec Account.
Context {L : Libs} {A : Type}.
Implicit Types (query : A -> bool) (c : collection A) (d : document A).

Lemma find_one_first query c d :
  find_one query c = Some d <-> first_match query c d.
Proof.
  unfold find_one, first_match. induction c as [|x c IH]; simpl.
  - split; [discriminate|]. intros (pre & post & E & _).
    destruct pre; discriminate.
  - destruct (query (keys x)) eqn:Hx.
    + split.
      * intros [= ->]. exists [], c. repeat split; [exact Hx|]. intros ? [].
      * intros ([|y pre] & post & E & Hd & Hpre); injection E as -> E.
        -- reflexivity.
        -- rewrite (Hpre y (or_introl eq_refl)) in Hx. discriminate.
    + rewrite IH. split.
      * intros (pre & post & -> & Hd & Hpre). exists (x :: pre), post.
        repeat split; [exact Hd|]. intros y [<-|Hy]; [exact Hx | now apply Hpre].
      * intros ([|y pre] & post & E & Hd & Hpre); injection E as -> E.
        -- congruence.
        -- exists pre, post. repeat split; [exact E | exact Hd|].
           intros z Hz. apply Hpre. now right.
Qed.

Lemma find_one_none query c :
  find_one query c = None <-> forall d, In d c -> query (keys d) = false.
Proof.
  unfold find_one. split.
  - intros H d Hd. exact (find_none _ _ H d Hd).
  - intros H. induction c as [|x c IH]; [reflexivity|]. simpl.
    rewrite (H x (or_introl eq_refl)). apply IH.
    intros d Hd. apply H. now right.
Qed.

Lemma update_one_none (eqb : A -> A -> bool) query (upd : A -> A) c :
  (forall d, In d c -> query (keys d) = false) ->
  update_one eqb query upd c = (0, c).
Proof.
  induction c as [|x c IH]; intros H; [reflexivity|]. simpl.
  rewrite (H x (or_introl eq_refl)), IH; [reflexivity|].
  intros d Hd. apply H. now right.
Qed.

Lemma update_one_first (eqb : A -> A -> bool) query (upd : A -> A)
      (pre post : collection A) d :
  (forall x, In x pre -> query (keys x) = false) ->
  query (keys d) = true ->
  update_one eqb query upd (pre ++ d :: post) =
  if eqb (keys d) (upd (keys d))
  then (0, pre ++ d :: post)
  else (1, pre ++ {| _id := _id d; keys := upd (keys d) |} :: post).
Proof.
  intros Hpre Hd. induction pre as [|x pre IH]; simpl.
  - rewrite Hd. now destruct (eqb (keys d) (upd (keys d))).
  - rewrite (Hpre x (or_introl eq_refl)), IH.
    + now destruct (eqb (keys d) (upd (keys d))).
    + intros y Hy. apply Hpre. now right.
Qed.

Lemma delete_one_none query c :
  (forall d, In d c -> query (keys d) = false) ->
  delete_one query c = (0, c).
Proof.
  induction c as [|x c IH]; intros H; [reflexivity|]. simpl.
  rewrite (H x (or_introl eq_refl)), IH; [reflexivity|].
  intros d Hd. apply H. now right.
Qed.

Lemma delete_one_first query (pre post : collection A) d :
  (forall x, In x pre -> query (keys x) = false) ->
  query (keys d) = true ->
  delete_one query (pre ++ d :: post) = (1, pre ++ post).
Proof.
  intros Hpre Hd. induction pre as [|x pre IH]; simpl.
  - now rewrite Hd.
  - rewrite (Hpre x (or_introl eq_refl)), IH; [reflexivity|].
    intros y Hy. apply Hpre. now right.
Qed.

End Collections.

Section AccountProperties.
Import Spec Account.
Context {L : Libs}.

Lemma find_user_none (s : db) (e : str) :
  find_one (user_email_is e) (users_collection s) = None <->
  ~ registered s e.
Proof.
  rewrite find_one_none. unfold registered, user_email_is. split.
  - intros H (d & Hd & E). specialize (H d Hd).
    apply str_eqb_neq in H. contradiction.
  - intros H d Hd. apply str_eqb_neq. intro E. apply H. now exists d.
Qed.

Lemma user_of_email (s : db) (e : str) (d : document user_fields) :
  user_of s e d -> u_email (keys d) = e.
Proof.
  intros (pre & post & _ & H & _). now apply str_eqb_eq in H.
Qed.

Lemma user_of_registered (s : db) (e : str) (d : document user_fields) :
  user_of s e d -> registered s e.
Proof.
  intros H. exists d. split; [|eapply user_of_email; eassumption].
  destruct H as (pre & post & -> & _). apply in_elt.
Qed.

Lemma user_of_unique (s : db) (e : str) (d d' : document user_fields) :
  user_of s e d -> user_of s e d' -> d = d'.
Proof.
  unfold user_of. rewrite <- !find_one_first. congruence.
Qed.

Lemma db_eta (s : db) :
  {| users_collection := users_collection s;
     favorites_collection := favorites_collection s |} = s.
Proof. now destruct s. Qed.

(** Unfolds a handler down to the collections it reads and writes. *)
Ltac run_handler :=
  unfold login_for_access_token, create_user, update_user,
    delete_user_account, add_favorite_recipe, delete_favorite_recipe,
    get_user_recipes, get_user_profile, get_current_user,
    depends_current_user, get_password_hash, fmap,
    bind, with_users, with_favorites, ret, raise; simpl.

(** C3, as amended: [POST /token] answers 401 exactly when no user has
    the email or the verification of the password against the stored
    hash returns false; when the verification raises, its exception
    leaves the handler; otherwise the route returns a bearer token that
    decodes, until it expires, to the user's email as subject and to an
    expiry 30 minutes after the login. *)
Theorem login_correct (LL : LibsLaws L) (e : env) (form_data : LoginForm)
        (s : db) :
  let r := login_for_access_token e form_data s in
  let unauthorized :=
    Raise (HTTPException 401 (py "Invalid email or password")) in
  snd r = s /\
  (fst r = unauthorized <->
   ~ registered s (form_username form_data) \/
   exists doc, user_of s (form_username form_data) doc /\
               pwd_verify (form_password form_data)
                          (u_password (keys doc)) = Some false) /\
  (fst r = Raise PasslibError <->
   exists doc, user_of s (form_username form_data) doc /\
               pwd_verify (form_password form_data)
                          (u_password (keys doc)) = None) /\
  (fst r <> unauthorized -> fst r <> Raise PasslibError ->
   exists doc token,
     user_of s (form_username form_data) doc /\
     u_email (keys doc) = form_username form_data /\
     fst r = Ok {| access_token := token; token_type := py "bearer" |} /\
     forall t, (t <= now e + 30 * 60)%Z ->
       jwt_decode token t =
       Some {| sub := Some (u_email (keys doc));
               exp := Some (now e + 30 * 60)%Z |}).
Proof.
  intros r unauthorized. subst r unauthorized. run_handler.
  destruct (find_one (user_email_is (form_username form_data))
                     (users_collection s)) as [doc|] eqn:Hfind;
    [|apply find_user_none in Hfind].
  2:{ rewrite db_eta. simpl. split; [reflexivity|]. split; [|split].
      - split; [now left | reflexivity].
      - split; [discriminate|]. intros (doc & Hdoc & _).
        destruct Hfind. eapply user_of_registered; eassumption.
      - congruence. }
  apply find_one_first in Hfind. fold (user_of s (form_username form_data) doc)
    in Hfind.
  assert (Hsame : forall doc', user_of s (form_username form_data) doc' ->
                               doc' = doc)
    by (intros doc' H; exact (user_of_unique H Hfind)).
  unfold verify_password, ret, raise. rewrite !db_eta.
  destruct (pwd_verify (form_password form_data) (u_password (keys doc)))
    as [[|]|] eqn:Hv; simpl.
  - split; [reflexivity|]. split; [|split].
    + split; [discriminate|]. intros [H|(doc' & Hdoc' & Hv')].
      * destruct H. eapply user_of_registered; eassumption.
      * rewrite (Hsame _ Hdoc') in Hv'. congruence.
    + split; [discriminate|]. intros (doc' & Hdoc' & Hv').
      rewrite (Hsame _ Hdoc') in Hv'. congruence.
    + intros _ _. exists doc. eexists. split; [exact Hfind|].
      split; [eapply user_of_email; eassumption|].
      split; [reflexivity|]. intros t Ht.
      unfold create_access_token. simpl.
      eapply jwt_roundtrip; [reflexivity|].
      unfold timedelta_minutes, ACCESS_TOKEN_EXPIRE_MINUTES. exact Ht.
  - split; [reflexivity|]. split; [|split].
    + split; [|reflexivity]. intros _. right. now exists doc.
    + split; [discriminate|]. intros (doc' & Hdoc' & Hv').
      rewrite (Hsame _ Hdoc') in Hv'. congruence.
    + congruence.
  - split; [reflexivity|]. split; [|split].
    + split; [discriminate|]. intros [H|(doc' & Hdoc' & Hv')].
      * destruct H. eapply user_of_registered; eassumption.
      * rewrite (Hsame _ Hdoc') in Hv'. congruence.
    + split; [|reflexivity]. intros _. now exists doc.
    + congruence.
Qed.

(** C4, as amended: [POST /users/] answers 400 "Email already registered"
    and leaves the collections alone when the email is taken; when it is
    free and the library hashes the supplied password, it appends one
    user whose password key holds that hash, after which the same email
    is refused; when it is free and hashing the password raises, the
    exception leaves the handler and nothing is stored. *)
Theorem create_user_correct (e : env) (user : User) (s : db) :
  let conflict := Raise (HTTPException 400 (py "Email already registered")) in
  (registered s (email user) -> create_user e user s = (conflict, s)) /\
  (~ registered s (email user) ->
   forall p hashed,
     value (password user) = Some p ->
     pwd_hash (salt e) p = Some hashed ->
     let stored :=
       {| _id := new_oid e;
          keys := {| u_name := name user; u_email := email user;
                     u_password := hashed;
                     u_profile_image := value (profile_image user) |} |} in
     let s' := {| users_collection := users_collection s ++ [stored];
                  favorites_collection := favorites_collection s |} in
     create_user e user s = (Ok (py "User created successfully"), s') /\
     forall e' user', email user' = email user ->
       create_user e' user' s' = (conflict, s')) /\
  (~ registered s (email user) ->
   forall p,
     value (password user) = Some p ->
     pwd_hash (salt e) p = None ->
     create_user e user s = (Raise PasslibError, s)).
Proof.
  intros conflict. subst conflict.
  assert (Htaken : forall e0 u0 s0, registered s0 (email u0) ->
            create_user e0 u0 s0 =
            (Raise (HTTPException 400 (py "Email already registered")), s0)).
  { intros e0 u0 s0 Hreg. run_handler.
    destruct (find_one (user_email_is (email u0)) (users_collection s0))
      eqn:Hfind.
    - now destruct s0.
    - apply find_user_none in Hfind. contradiction. }
  split; [apply Htaken|]. split.
  - intros Hfree p hashed Hp Hhash stored s'. split.
    + run_handler. apply find_user_none in Hfree. rewrite Hfree.
      rewrite Hp, Hhash. reflexivity.
    + intros e' user' Hemail. apply Htaken. rewrite Hemail.
      exists stored. split; [|reflexivity].
      subst s'. simpl. apply in_or_app. right. now left.
  - intros Hfree p Hp Hhash. run_handler. apply find_user_none in Hfree.
    rewrite Hfree, Hp, Hhash. simpl. now rewrite db_eta.
Qed.

Lemma option_str_eqb_eq (a b : option str) :
  option_str_eqb a b = true <-> a = b.
Proof.
  destruct a as [a|], b as [b|]; simpl;
    try (split; (discriminate || reflexivity)).
  rewrite str_eqb_eq. split; congruence.
Qed.

Lemma user_fields_eqb_eq (a b : user_fields) :
  user_fields_eqb a b = true <-> a = b.
Proof.
  unfold user_fields_eqb.
  rewrite !andb_true_iff, !str_eqb_eq, option_str_eqb_eq.
  destruct a, b; simpl. split.
  - intros [[[-> ->] ->] ->]. reflexivity.
  - intros [= -> -> -> ->]. auto.
Qed.

(** What a successful [get_current_user] tells: the token decodes to a
    non-empty subject, the caller is the first user with that email, and
    nothing was written. *)
Lemma get_current_user_ok (e : env) (token : Token) (s s' : db)
      (current_user : serialized user_fields) :
  get_current_user e token s = (Ok current_user, s') ->
  s' = s /\
  exists claims subject doc,
    jwt_decode token (now e) = Some claims /\
    sub claims = Some subject /\ subject <> [] /\
    user_of s subject doc /\
    current_user = serialize_document doc.
Proof.
  run_handler.
  destruct (jwt_decode token (now e)) as [claims|]; [|discriminate].
  destruct (sub claims) as [subject|] eqn:Hsub; [|discriminate].
  destruct subject as [|c subject]; [discriminate|]. simpl.
  destruct (find_one (user_email_is (c :: subject)) (users_collection s))
    as [doc|] eqn:Hfind; [|discriminate].
  rewrite db_eta. intros H. inversion H; subst. split; [reflexivity|].
  exists claims, (c :: subject), doc.
  split; [reflexivity|]. split; [exact Hsub|]. split; [discriminate|].
  split; [now apply find_one_first | reflexivity].
Qed.

Lemma get_current_user_state (e : env) (token : Token) (s : db) :
  snd (get_current_user e token s) = s.
Proof.
  run_handler.
  destruct (jwt_decode token (now e)) as [claims|]; [|reflexivity].
  destruct (sub claims) as [subject|]; [|reflexivity].
  destruct subject as [|c subject]; [reflexivity|]. simpl.
  destruct (find_one _ _); simpl; apply db_eta.
Qed.

(** C6: when the caller is authenticated and the email of the body is not
    the subject of the token, [PUT /users/] answers 403 and writes
    nothing. *)
Theorem update_user_forbidden (e : env) (token : Token) (user : User)
        (s s0 : db) (current_user : serialized user_fields)
        (claims : payload) (subject : str) :
  get_current_user e token s = (Ok current_user, s0) ->
  jwt_decode token (now e) = Some claims ->
  sub claims = Some subject ->
  email user <> subject ->
  route e (PUT_users token user) s =
  (Raise (HTTPException 403 (py "You can only update your own profile")), s).
Proof.
  intros Hauth Hdec Hsub Hneq.
  destruct (get_current_user_ok _ _ _ Hauth)
    as (-> & claims' & subject' & doc & Hdec' & Hsub' & _ & Hdoc & ->).
  assert (subject' = subject) as -> by congruence.
  apply user_of_email in Hdoc.
  unfold route, fmap, depends_current_user, bind at 1 2.
  rewrite Hauth. unfold update_user, serialize_document. cbn [data].
  rewrite Hdoc.
  assert (Hb : str_eqb subject (email user) = false)
    by (apply str_eqb_neq; congruence).
  rewrite Hb. reflexivity.
Qed.

Lemma delete_user_account_favorites (current_user : serialized user_fields)
      (s : db) :
  favorites_collection (snd (delete_user_account current_user s)) =
  filter (fun d => negb (str_eqb (f_email (keys d))
                                 (u_email (data current_user))))
         (favorites_collection s).
Proof.
  run_handler. destruct (delete_one _ (users_collection s)) as [n c].
  simpl. now destruct (n =? 0).
Qed.

Lemma delete_user_account_found (current_user : serialized user_fields)
      (s : db) :
  registered s (u_email (data current_user)) ->
  fst (delete_user_account current_user s) =
  Ok (py "User account and associated data deleted successfully").
Proof.
  intros Hreg.
  destruct (find_one (user_email_is (u_email (data current_user)))
                     (users_collection s)) as [doc|] eqn:Hfind.
  - apply find_one_first in Hfind as (pre & post & Hs & Hq & Hpre).
    run_handler. now rewrite Hs, (delete_one_first _ pre post doc Hpre Hq).
  - apply find_user_none in Hfind. contradiction.
Qed.

Lemma delete_user_account_missing (current_user : serialized user_fields)
      (s : db) :
  ~ registered s (u_email (data current_user)) ->
  fst (delete_user_account current_user s) =
    Raise (HTTPException 404 (py "User not found")) /\
  users_collection (snd (delete_user_account current_user s)) =
    users_collection s.
Proof.
  intros Hnone. apply find_user_none in Hnone.
  pose proof (proj1 (find_one_none _ _) Hnone) as Hall.
  run_handler. rewrite (delete_one_none _ _ Hall). now split.
Qed.

(** C9: [DELETE /users/delete_account/] removes the caller's favorites
    whatever comes next; it answers 404 exactly when no user record has
    the caller's email, and then the user records are as before while the
    caller's favorites are gone from the collection it leaves behind. *)
Theorem delete_account_not_atomic (current_user : serialized user_fields)
        (s : db) :
  let r := delete_user_account current_user s in
  let not_found := Raise (HTTPException 404 (py "User not found")) in
  let caller := u_email (data current_user) in
  favorites_collection (snd r) =
    filter (fun d => negb (str_eqb (f_email (keys d)) caller))
           (favorites_collection s) /\
  (fst r = not_found <-> ~ registered s caller) /\
  (fst r = not_found ->
   users_collection (snd r) = users_collection s /\
   (forall d, In d (favorites_collection (snd r)) ->
              f_email (keys d) <> caller) /\
   ((exists d, In d (favorites_collection s) /\ f_email (keys d) = caller) ->
    snd r <> s)).
Proof.
  intros r not_found caller.
  pose proof (delete_user_account_favorites current_user s) as Hfavs.
  fold r caller in Hfavs.
  assert (Hiff : fst r = not_found <-> ~ registered s caller).
  { split.
    - intros Hfail Hreg. subst r not_found.
      rewrite (delete_user_account_found _ Hreg) in Hfail. discriminate.
    - intros Hnone. now apply delete_user_account_missing. }
  split; [exact Hfavs|]. split; [exact Hiff|].
  intros Hfail. apply Hiff in Hfail.
  assert (Hgone : forall d, In d (favorites_collection (snd r)) ->
                            f_email (keys d) <> caller).
  { intros d Hd. rewrite Hfavs in Hd. apply filter_In in Hd as [_ Hd].
    now apply negb_true_iff, str_eqb_neq in Hd. }
  split; [now apply delete_user_account_missing|]. split; [exact Hgone|].
  intros (d & Hd & Hown) Heq. rewrite Heq in Hgone.
  exact (Hgone d Hd Hown).
Qed.

(** Behind [Depends(get_current_user)], with nothing happening between
    the lookup of the caller and the deletion, the user record is there:
    the route does not answer "User not found". *)
Remark delete_account_route_finds_user (e : env) (token : Token) (s : db) :
  fst (route e (DELETE_users_delete_account token) s) <>
  Raise (HTTPException 404 (py "User not found")).
Proof.
  unfold route, fmap, depends_current_user, bind at 1 2.
  destruct (get_current_user e token s) as [[u|x] s1] eqn:Hauth.
  - destruct (get_current_user_ok _ _ _ Hauth)
      as (-> & claims & subject & doc & _ & _ & _ & Hdoc & ->).
    assert (Hreg : registered s (u_email (data (serialize_document doc)))).
    { simpl. rewrite (user_of_email Hdoc).
      eapply user_of_registered. exact Hdoc. }
    pose proof (delete_user_account_found _ Hreg) as Hok.
    destruct (delete_user_account (serialize_document doc) s) as [[m|x] s2];
      simpl in *; [discriminate | discriminate].
  - simpl. intros Heq. injection Heq as ->.
    revert Hauth. run_handler.
    destruct (jwt_decode token (now e)) as [claims|]; [|discriminate].
    destruct (sub claims) as [[|c subject]|]; try discriminate. simpl.
    destruct (find_one _ _); discriminate.
Qed.

Lemma apply_set_profile_after (e : env) (user : User) (old : user_fields) :
  acceptable e user ->
  profile_after (pwd_hash (salt e)) user old (apply_set (sent_update e user) old).
Proof.
  intros [_ Hpw]. unfold profile_after, apply_set, sent_update. simpl.
  split; [reflexivity|]. split; [reflexivity|]. split.
  - destruct (password user) as [|[p|]]; [reflexivity | | destruct Hpw].
    exists p. split; [reflexivity|].
    now destruct (pwd_hash (salt e) p).
  - now destruct (profile_image user).
Qed.

Lemma profile_after_unique (e : env) (user : User) (old new : user_fields) :
  profile_after (pwd_hash (salt e)) user old new ->
  new = apply_set (sent_update e user) old.
Proof.
  unfold profile_after, apply_set, sent_update. simpl.
  intros (Hn & He & Hp & Hi). destruct new as [n m p i]. simpl in *.
  subst n m. f_equal.
  - destruct (password user) as [|v]; [exact Hp|].
    destruct Hp as (q & -> & ->). reflexivity.
  - now destruct (profile_image user).
Qed.

Lemma image_refused_run (e : env) (v : option str) (s : db) :
  image_refused e v s = (image_verdict e v, s).
Proof.
  unfold image_refused, image_verdict, check_image_url, bind, ret, raise.
  destruct v as [[|c url]|]; simpl; try reflexivity.
  now destruct (requests_get e (c :: url)).
Qed.

(** [update_user] step by step: the test of the email, the test of the
    image, the hash of the password, the update and its count. *)
Lemma update_user_run (e : env) (user : User)
      (current_user : serialized user_fields) (s : db) :
  update_user e user current_user s =
  if negb (str_eqb (u_email (data current_user)) (email user))
  then (Raise (HTTPException 403
                 (py "You can only update your own profile")), s)
  else
    match image_verdict e (value (profile_image user)) with
    | Raise x => (Raise x, s)
    | Ok true =>
        (Raise (HTTPException 400
                  (py "Provided image URL is not accessible")), s)
    | Ok false =>
        match password user with
        | Given None => (Raise TypeError, s)
        | Given (Some p) =>
            match pwd_hash (salt e) p with
            | None => (Raise PasslibError, s)
            | Some _ =>
                let (n, c) :=
                  update_one user_fields_eqb
                    (user_email_is (u_email (data current_user)))
                    (apply_set (sent_update e user)) (users_collection s) in
                (if n =? 0
                 then Raise (HTTPException 404
                               (py "User not found or no changes made"))
                 else Ok (py "Profile updated successfully"),
                 {| users_collection := c;
                    favorites_collection := favorites_collection s |})
            end
        | Unset =>
            let (n, c) :=
              update_one user_fields_eqb
                (user_email_is (u_email (data current_user)))
                (apply_set (sent_update e user)) (users_collection s) in
            (if n =? 0
             then Raise (HTTPException 404
                           (py "User not found or no changes made"))
             else Ok (py "Profile updated successfully"),
             {| users_collection := c;
                favorites_collection := favorites_collection s |})
        end
    end.
Proof.
  unfold update_user.
  destruct (negb (str_eqb (u_email (data current_user)) (email user)));
    [reflexivity|].
  unfold bind at 1. rewrite image_refused_run.
  destruct (image_verdict e (value (profile_image user))) as [[|]|x];
    try reflexivity.
  unfold sent_update, dict_exclude_unset. cbn [set_password set_name
    set_email set_profile_image].
  destruct (password user) as [|[p|]] eqn:Hp; run_handler;
    try reflexivity.
  - destruct (update_one _ _ _ _) as [n c]; now destruct (n =? 0).
  - destruct (pwd_hash (salt e) p) as [h|]; simpl; [|reflexivity].
    destruct (update_one _ _ _ _) as [n c]; now destruct (n =? 0).
Qed.

Lemma acceptable_image (e : env) (user : User) :
  acceptable e user ->
  image_verdict e (value (profile_image user)) = Ok false.
Proof.
  intros [Himg _]. unfold image_verdict.
  destruct (value (profile_image user)) as [[|c url]|]; try reflexivity.
  destruct Himg as [H|(response & -> & Hok)]; [discriminate|].
  now rewrite Hok.
Qed.

(** [update_user] on a body that passes the checks: one [update_one] on
    the caller's email, then the test of [modified_count]. *)
Lemma update_user_accepted (e : env) (user : User)
      (current_user : serialized user_fields) (s : db) :
  u_email (data current_user) = email user ->
  acceptable e user ->
  update_user e user current_user s =
  let (n, c) := update_one user_fields_eqb (user_email_is (email user))
                           (apply_set (sent_update e user))
                           (users_collection s) in
  (if n =? 0
   then Raise (HTTPException 404 (py "User not found or no changes made"))
   else Ok (py "Profile updated successfully"),
   {| users_collection := c;
      favorites_collection := favorites_collection s |}).
Proof.
  intros Hemail Hacc. rewrite update_user_run.
  rewrite (acceptable_image Hacc). destruct Hacc as [_ Hpw].
  rewrite Hemail, str_eqb_refl. simpl negb. cbv iota.
  destruct (password user) as [|[p|]]; [reflexivity | | destruct Hpw].
  now destruct (pwd_hash (salt e) p).
Qed.

(** A successful [update_user] passed the checks. *)
Lemma update_user_ok_accepted (e : env) (user : User)
      (current_user : serialized user_fields) (s s' : db) (msg : str) :
  update_user e user current_user s = (Ok msg, s') ->
  u_email (data current_user) = email user /\ acceptable e user.
Proof.
  rewrite update_user_run.
  destruct (str_eqb (u_email (data current_user)) (email user)) eqn:He;
    [|discriminate].
  apply str_eqb_eq in He. simpl negb. cbv iota.
  unfold acceptable, image_verdict.
  destruct (value (profile_image user)) as [[|c url]|].
  - intros H. split; [exact He|]. split; [now left|].
    destruct (password user) as [|[p|]]; [exact I | | discriminate].
    destruct (pwd_hash (salt e) p); [discriminate | discriminate H].
  - destruct (requests_get e (c :: url)) as [response| |] eqn:Hget;
      try discriminate.
    destruct (is_image response) eqn:Himg; simpl negb; cbv iota;
      [|discriminate].
    intros H. split; [exact He|]. split; [right; now exists response|].
    destruct (password user) as [|[p|]]; [exact I | | discriminate].
    destruct (pwd_hash (salt e) p); [discriminate | discriminate H].
  - intros H. split; [exact He|]. split; [exact I|].
    destruct (password user) as [|[p|]]; [exact I | | discriminate].
    destruct (pwd_hash (salt e) p); [discriminate | discriminate H].
Qed.

(** C7: a successful profile update rewrites one stored user, the first
    with the caller's email: name and email as in the body, the password
    key to the hash of the given password or left as it was, the image to
    the given one or left as it was; identifier, other users and favorites
    stay.  An accepted update that matches no user, or that would leave
    the matched user as it is, answers 404 and writes nothing. *)
Theorem update_user_frame (e : env) (user : User)
        (current_user : serialized user_fields) (s : db) :
  (forall msg s',
      update_user e user current_user s = (Ok msg, s') ->
      exists pre doc post new,
        users_collection s = pre ++ doc :: post /\
        u_email (keys doc) = u_email (data current_user) /\
        (forall x, In x pre ->
                   u_email (keys x) <> u_email (data current_user)) /\
        profile_after (pwd_hash (salt e)) user (keys doc) new /\
        users_collection s' =
          pre ++ {| _id := _id doc; keys := new |} :: post /\
        favorites_collection s' = favorites_collection s) /\
  (u_email (data current_user) = email user ->
   acceptable e user ->
   (~ registered s (email user) \/
    exists doc, user_of s (email user) doc /\
                profile_after (pwd_hash (salt e)) user (keys doc) (keys doc)) ->
   update_user e user current_user s =
   (Raise (HTTPException 404 (py "User not found or no changes made")), s)).
Proof.
  split.
  - intros msg s' Hok.
    destruct (update_user_ok_accepted _ _ _ _ Hok) as [Hemail Hacc].
    rewrite (update_user_accepted _ _ Hemail Hacc) in Hok.
    destruct (find_one (user_email_is (email user)) (users_collection s))
      as [doc|] eqn:Hfind.
    + apply find_one_first in Hfind.
      destruct Hfind as (pre & post & Hs & Hdoc & Hpre).
      rewrite Hs, (update_one_first _ _ _ _ post doc Hpre Hdoc) in Hok.
      destruct (user_fields_eqb (keys doc)
                  (apply_set (sent_update e user) (keys doc))) eqn:Heq;
        simpl in Hok; [discriminate|].
      injection Hok as _ <-.
      exists pre, doc, post, (apply_set (sent_update e user) (keys doc)).
      rewrite Hemail. apply str_eqb_eq in Hdoc.
      split; [exact Hs|]. split; [exact Hdoc|]. split.
      * intros x Hx. apply str_eqb_neq. now apply Hpre.
      * split; [apply apply_set_profile_after, Hacc|]. now split.
    + pose proof (proj1 (find_one_none _ _) Hfind) as Hnone.
      rewrite (update_one_none _ _ _ _ Hnone) in Hok. discriminate.
  - intros Hemail Hacc Hzero.
    rewrite (update_user_accepted _ _ Hemail Hacc).
    destruct Hzero as [Hnone|(doc & Hdoc & Hsame)].
    + apply find_user_none in Hnone.
      pose proof (proj1 (find_one_none _ _) Hnone) as Hall.
      rewrite (update_one_none _ _ _ _ Hall). simpl. now rewrite db_eta.
    + destruct Hdoc as (pre & post & Hs & Hq & Hpre).
      rewrite Hs, (update_one_first _ _ _ _ post doc Hpre Hq).
      apply profile_after_unique in Hsame.
      assert (Heq : user_fields_eqb (keys doc)
                      (apply_set (sent_update e user) (keys doc)) = true)
        by now apply user_fields_eqb_eq.
      rewrite Heq. simpl. rewrite <- Hs. now rewrite db_eta.
Qed.

Lemma keeps_ret {A} (a : A) : keeps_unique (ret a).
Proof. intros s H. exact H. Qed.

Lemma keeps_raise {A} (x : exn) : keeps_unique (@raise L A x).
Proof. intros s H. exact H. Qed.

Lemma keeps_bind {A B} (m : M A) (k : A -> M B) :
  keeps_unique m -> (forall a, keeps_unique (k a)) -> keeps_unique (bind m k).
Proof.
  intros Hm Hk s H. unfold bind. specialize (Hm s H).
  destruct (m s) as [[a|x] s1]; simpl in *; [now apply Hk | exact Hm].
Qed.

Lemma keeps_with_users {A}
      (f : collection user_fields -> A * collection user_fields) :
  keeps_unique (with_users f).
Proof.
  intros s H. unfold with_users.
  destruct (f (users_collection s)). exact H.
Qed.

Lemma keeps_with_favorites {A}
      (f : collection favorite_fields -> A * collection favorite_fields) :
  (forall c, NoDup (map fav_key c) -> NoDup (map fav_key (snd (f c)))) ->
  keeps_unique (with_favorites f).
Proof.
  intros Hf s H. unfold with_favorites. specialize (Hf _ H).
  destruct (f (favorites_collection s)). exact Hf.
Qed.

Lemma NoDup_map_filter {A B} (f : A -> B) (g : A -> bool) (l : list A) :
  NoDup (map f l) -> NoDup (map f (filter g l)).
Proof.
  induction l as [|a l IH]; intros H; [constructor|].
  inversion H as [|? ? Hnotin Hrest]; subst. simpl.
  destruct (g a); [|now apply IH].
  simpl. constructor; [|now apply IH].
  intros Hin. apply Hnotin. apply in_map_iff in Hin as (x & Hx & Hin).
  apply filter_In in Hin as [Hin _]. apply in_map_iff. now exists x.
Qed.

Lemma delete_one_incl {A} (query : A -> bool) (c : collection A) :
  incl (snd (delete_one query c)) c.
Proof.
  induction c as [|x c IH]; simpl; [apply incl_refl|].
  destruct (query (keys x)); [apply incl_tl, incl_refl|].
  destruct (delete_one query c) as [n c']. simpl in *.
  now apply incl_cons; [left | apply incl_tl].
Qed.

Lemma NoDup_map_delete_one {A B} (f : document A -> B) (query : A -> bool)
      (c : collection A) :
  NoDup (map f c) -> NoDup (map f (snd (delete_one query c))).
Proof.
  induction c as [|x c IH]; intros H; [constructor|].
  inversion H as [|? ? Hnotin Hrest]; subst. simpl.
  destruct (query (keys x)); [exact Hrest|].
  pose proof (delete_one_incl query c) as Hincl.
  destruct (delete_one query c) as [n c']. simpl in *.
  constructor; [|now apply IH].
  intros Hin. apply Hnotin. apply in_map_iff in Hin as (y & Hy & Hin).
  apply in_map_iff. exists y. split; [exact Hy | now apply Hincl].
Qed.

Lemma find_favorite_none (s : db) (owner name : str) :
  find_one (fav_email_name_is owner name) (favorites_collection s) = None <->
  ~ has_favorite s owner name.
Proof.
  rewrite find_one_none. unfold has_favorite, fav_email_name_is. split.
  - intros H (d & Hd & Ho & Hn). specialize (H d Hd).
    rewrite Ho, Hn, !str_eqb_refl in H. discriminate.
  - intros H d Hd. apply not_true_is_false. intros Ht.
    apply andb_true_iff in Ht as [Ho Hn]. apply str_eqb_eq in Ho, Hn.
    apply H. now exists d.
Qed.

Lemma NoDup_map_insert (oid : ObjectId) (doc : favorite_fields)
      (c : collection favorite_fields) :
  find_one (fav_email_name_is (f_email doc) (f_name doc)) c = None ->
  NoDup (map fav_key c) -> NoDup (map fav_key (insert_one oid doc c)).
Proof.
  intros Hnone H. unfold insert_one. rewrite map_app. simpl.
  apply NoDup_app; [exact H | repeat constructor; intros [] |].
  intros k Hk [<-|[]]. apply in_map_iff in Hk as (d & Hd & Hin).
  pose proof (proj1 (find_one_none _ _) Hnone d Hin) as Hq.
  unfold fav_key in Hd. simpl in Hd. injection Hd as He Hn.
  unfold fav_email_name_is in Hq. rewrite He, Hn, !str_eqb_refl in Hq.
  discriminate.
Qed.

(** Walks through the binds and the branches of a handler. *)
Ltac keeps_step :=
  first
    [ apply keeps_ret | apply keeps_raise | apply keeps_with_users
    | apply keeps_bind
    | match goal with
      | |- forall _, _ => intro
      | |- keeps_unique (match ?x with _ => _ end) => destruct x
      | |- keeps_unique (if ?b then _ else _) => destruct b
      end ].

Lemma keeps_get_current_user (e : env) (token : Token) :
  keeps_unique (get_current_user e token).
Proof. unfold get_current_user. repeat keeps_step. Qed.

Lemma keeps_depends {A} (e : env) (token : Token)
      (handler : serialized user_fields -> M A) :
  (forall u, keeps_unique (handler u)) ->
  keeps_unique (depends_current_user e token handler).
Proof.
  intros H. unfold depends_current_user.
  apply keeps_bind; [apply keeps_get_current_user | exact H].
Qed.

Lemma keeps_fmap {A B} (f : A -> B) (m : M A) :
  keeps_unique m -> keeps_unique (fmap f m).
Proof.
  intros H. unfold fmap. apply keeps_bind; [exact H | intro; apply keeps_ret].
Qed.

Lemma keeps_create_user (e : env) (user : User) :
  keeps_unique (create_user e user).
Proof. unfold create_user, get_password_hash. repeat keeps_step. Qed.

Lemma keeps_update_user (e : env) (user : User)
      (u : serialized user_fields) :
  keeps_unique (update_user e user u).
Proof.
  unfold update_user, image_refused, check_image_url, get_password_hash.
  repeat keeps_step.
Qed.

Lemma keeps_login (e : env) (form_data : LoginForm) :
  keeps_unique (login_for_access_token e form_data).
Proof.
  unfold login_for_access_token, verify_password. repeat keeps_step.
Qed.

Lemma keeps_get_user_recipes (title : option str)
      (u : serialized user_fields) :
  keeps_unique (get_user_recipes title u).
Proof.
  unfold get_user_recipes.
  apply keeps_bind; [|intro; apply keeps_ret].
  apply keeps_with_favorites. intros c H. exact H.
Qed.

Lemma keeps_delete_user_account (u : serialized user_fields) :
  keeps_unique (delete_user_account u).
Proof.
  unfold delete_user_account.
  apply keeps_bind; [|repeat keeps_step].
  apply keeps_with_favorites. intros c H. simpl.
  now apply NoDup_map_filter.
Qed.

Lemma keeps_add_favorite_recipe (e : env) (recipe : FavoriteRecipe)
      (u : serialized user_fields) :
  keeps_unique (add_favorite_recipe e recipe u).
Proof.
  intros s H. unfold add_favorite_recipe, bind, with_favorites, ret, raise.
  simpl.
  destruct (find_one _ (favorites_collection s)) eqn:Hfind; simpl;
    [exact H|].
  unfold favorites_unique. simpl. now apply NoDup_map_insert.
Qed.

Lemma keeps_delete_favorite_recipe (title : str)
      (u : serialized user_fields) :
  keeps_unique (delete_favorite_recipe title u).
Proof.
  unfold delete_favorite_recipe.
  apply keeps_bind; [apply keeps_with_favorites; intros c H; exact H|].
  intros [d|]; [|apply keeps_raise].
  apply keeps_bind; [|intro; apply keeps_ret].
  apply keeps_with_favorites. intros c H. now apply NoDup_map_delete_one.
Qed.

Lemma keeps_route (e : env) (r : request) : keeps_unique (route e r).
Proof.
  destruct r; simpl; apply keeps_fmap;
    try apply keeps_depends; intros;
    auto using keeps_create_user, keeps_update_user, keeps_login,
      keeps_get_user_recipes, keeps_delete_user_account,
      keeps_add_favorite_recipe, keeps_delete_favorite_recipe.
  apply keeps_ret.
Qed.

Lemma serve_unique (trace : list (env * request)) (s : db) :
  favorites_unique s -> favorites_unique (serve trace s).
Proof.
  revert s. induction trace as [|[e r] trace IH]; intros s H; [exact H|].
  simpl. apply IH. now apply keeps_route.
Qed.

(** C5: [POST /recipes/] answers 400 and writes nothing when the caller
    already has a favorite of that name, and otherwise appends the recipe
    tagged with the caller's email; every route keeps the pairs (email,
    name) of the favorites distinct, so they are distinct after any
    sequence of requests served from empty collections. *)
Theorem favorites_unique_invariant :
  (forall (e : env) (recipe : FavoriteRecipe)
          (u : serialized user_fields) (s : db),
      has_favorite s (u_email (data u)) (fav_name recipe) ->
      add_favorite_recipe e recipe u s =
      (Raise (HTTPException 400
                (py "Recipe with this title already exists for the user")),
       s)) /\
  (forall (e : env) (recipe : FavoriteRecipe)
          (u : serialized user_fields) (s : db),
      ~ has_favorite s (u_email (data u)) (fav_name recipe) ->
      add_favorite_recipe e recipe u s =
      (Ok (py "Recipe added successfully"),
       {| users_collection := users_collection s;
          favorites_collection :=
            favorites_collection s ++
            [{| _id := new_oid e;
                keys := {| f_image := fav_image recipe;
                           f_name := fav_name recipe;
                           f_ingredients := fav_ingredients recipe;
                           f_instructions := fav_instructions recipe;
                           f_email := u_email (data u) |} |}] |})) /\
  (forall (e : env) (r : request) (s : db),
      favorites_unique s -> favorites_unique (snd (route e r s))) /\
  (forall trace : list (env * request),
      favorites_unique (serve trace empty_db)).
Proof.
  split; [|split; [|split]].
  - intros e recipe u s Hhas. run_handler.
    destruct (find_one _ (favorites_collection s)) eqn:Hfind.
    + now rewrite db_eta.
    + apply find_favorite_none in Hfind. contradiction.
  - intros e recipe u s Hnew. run_handler.
    apply find_favorite_none in Hnew. rewrite Hnew. reflexivity.
  - intros e r s. apply keeps_route.
  - intros trace. apply serve_unique. constructor.
Qed.

End AccountProperties.

#[local] Existing Instance Samples.toy_libs.

(** The toy libraries satisfy the law of the tokens. *)
Lemma toy_laws : Account.LibsLaws Samples.toy_libs.
Proof.
  constructor. intros p e now He Hle. simpl.
  unfold Samples.toy_decode. simpl. rewrite He.
  apply Z.leb_le in Hle. now rewrite Hle.
Qed.

Lemma login_witness :
  Account.LibsLaws Samples.toy_libs /\
  exists token,
    fst (Account.login_for_access_token (Samples.quiet 1000 "s" 1)
           {| Account.form_username := py "ann@example.org";
              Account.form_password := py "secret" |} Samples.ann_only)
    = Account.Ok {| Account.access_token := token;
                    Account.token_type := py "bearer" |} /\
    Account.jwt_decode token 2800 =
    Some {| Account.sub := Some (py "ann@example.org");
            Account.exp := Some 2800%Z |}.
Proof.
  split; [exact toy_laws|].
  destruct (@login_correct Samples.toy_libs toy_laws
              (Samples.quiet 1000 "s" 1)
              {| Account.form_username := py "ann@example.org";
                 Account.form_password := py "secret" |} Samples.ann_only)
    as (_ & _ & _ & H).
  destruct H as (doc & token & Hdoc & _ & Hok & Hdec);
    [discriminate | discriminate |].
  exists token. split; [exact Hok|].
  rewrite (Hdec 2800%Z); [|discriminate].
  apply find_one_first in Hdoc. cbv in Hdoc. injection Hdoc as <-.
  reflexivity.
Defined.

(** C3, the counterexample: Dee's stored password is not a hash the
    library identifies, so the verification raises: the login is neither
    refused with 401 nor answered with a token, although a user with the
    email exists. *)
Lemma login_verification_raises :
  let r := Account.login_for_access_token (Samples.quiet 1000 "s" 1)
             {| Account.form_username := py "dee@example.org";
                Account.form_password := py "secret" |} Samples.dee_only in
  Spec.registered Samples.dee_only (py "dee@example.org") /\
  r = (Account.Raise Account.PasslibError, Samples.dee_only) /\
  fst r <> Account.Raise (Account.HTTPException 401
                            (py "Invalid email or password")) /\
  forall token,
    fst r <> Account.Ok {| Account.access_token := token;
                           Account.token_type := py "bearer" |}.
Proof.
  split; [exists Samples.dee_doc; split; [now left | reflexivity]|].
  split; [reflexivity|]. split; [discriminate|].
  intros token. discriminate.
Qed.

Lemma create_user_witness :
  ~ Spec.registered Account.empty_db (Account.email Samples.ann) /\
  Account.create_user (Samples.quiet 0 "s" 7) Samples.ann Account.empty_db
  = (Account.Ok (py "User created successfully"), Samples.ann_only) /\
  Account.create_user (Samples.quiet 5 "t" 8) Samples.ann Samples.ann_only
  = (Account.Raise (Account.HTTPException 400 (py "Email already registered")),
     Samples.ann_only).
Proof.
  assert (Hfree : ~ Spec.registered Account.empty_db
                    (Account.email Samples.ann))
    by (intros (d & [] & _)).
  split; [exact Hfree|].
  destruct (proj1 (proj2 (@create_user_correct Samples.toy_libs
                     (Samples.quiet 0 "s" 7) Samples.ann Account.empty_db))
                  Hfree (py "secret") _ eq_refl eq_refl) as [Hok Hagain].
  split; [exact Hok|].
  exact (Hagain (Samples.quiet 5 "t" 8) Samples.ann eq_refl).
Defined.

(** C4, the counterexample: the email is free, but the library refuses a
    password that holds a NUL character, so the sign-up raises and no user
    is stored. *)
Lemma create_user_hash_raises :
  ~ Spec.registered Account.empty_db (Account.email Samples.cy) /\
  Account.create_user (Samples.quiet 0 "s" 7) Samples.cy Account.empty_db
  = (Account.Raise Account.PasslibError, Account.empty_db).
Proof.
  split; [intros (d & [] & _) | reflexivity].
Qed.

Lemma update_user_forbidden_witness :
  Account.get_current_user (Samples.quiet 1000 "s" 1) Samples.ann_token
    Samples.ann_only
  = (Account.Ok (Account.serialize_document Samples.ann_doc),
     Samples.ann_only) /\
  Account.email Samples.ann_as_bob <> py "ann@example.org" /\
  Account.route (Samples.quiet 1000 "s" 1)
    (Account.PUT_users Samples.ann_token Samples.ann_as_bob) Samples.ann_only
  = (Account.Raise (Account.HTTPException 403
       (py "You can only update your own profile")), Samples.ann_only).
Proof.
  assert (Hneq : Account.email Samples.ann_as_bob <> py "ann@example.org")
    by discriminate.
  split; [reflexivity|]. split; [exact Hneq|].
  exact (@update_user_forbidden Samples.toy_libs (Samples.quiet 1000 "s" 1)
           Samples.ann_token Samples.ann_as_bob Samples.ann_only
           Samples.ann_only (Account.serialize_document Samples.ann_doc)
           (Samples.claims Samples.ann_token) (py "ann@example.org")
           eq_refl eq_refl eq_refl Hneq).
Defined.

Lemma update_user_frame_witness :
  Account.update_user (Samples.online 1000 "s" 1) Samples.anna
    (Account.serialize_document Samples.ann_doc) Samples.ann_only
  = (Account.Ok (py "Profile updated successfully"),
     {| Account.users_collection := [Samples.anna_doc];
        Account.favorites_collection := [] |}) /\
  exists pre doc post new,
    [Samples.ann_doc] = pre ++ doc :: post /\
    Spec.profile_after (Samples.toy_hash "s") Samples.anna
      (Account.keys doc) new /\
    [Samples.anna_doc]
    = pre ++ {| Account._id := Account._id doc; Account.keys := new |} :: post.
Proof.
  split; [reflexivity|].
  destruct (proj1 (@update_user_frame Samples.toy_libs
                     (Samples.online 1000 "s" 1) Samples.anna
                     (Account.serialize_document Samples.ann_doc)
                     Samples.ann_only) _ _ eq_refl)
    as (pre & doc & post & new & H1 & _ & _ & H2 & H3 & _).
  exists pre, doc, post, new. split; [exact H1|]. split; [exact H2|exact H3].
Defined.

Lemma delete_account_witness :
  Account.delete_user_account (Account.serialize_document Samples.ann_doc)
    Samples.orphans
  = (Account.Raise (Account.HTTPException 404 (py "User not found")),
     {| Account.users_collection := [];
        Account.favorites_collection :=
          [Samples.pie_doc 2 (py "bob@example.org")] |}) /\
  ~ Spec.registered Samples.orphans (py "ann@example.org") /\
  snd (Account.delete_user_account
         (Account.serialize_document Samples.ann_doc) Samples.orphans)
  <> Samples.orphans.
Proof.
  split; [reflexivity|].
  destruct (@delete_account_not_atomic Samples.toy_libs
              (Account.serialize_document Samples.ann_doc) Samples.orphans)
    as (_ & Hiff & Hfail).
  split; [exact (proj1 Hiff eq_refl)|].
  apply (Hfail eq_refl). exists (Samples.pie_doc 1 (py "ann@example.org")).
  split; [now left | reflexivity].
Defined.

Lemma favorites_unique_witness :
  Spec.has_favorite
    {| Account.users_collection := [Samples.ann_doc];
       Account.favorites_collection :=
         [Samples.pie_doc 7 (py "ann@example.org")] |}
    (py "ann@example.org") (py "Pie") /\
  Account.add_favorite_recipe (Samples.quiet 1000 "s" 8) Samples.pie
    (Account.serialize_document Samples.ann_doc)
    {| Account.users_collection := [Samples.ann_doc];
       Account.favorites_collection :=
         [Samples.pie_doc 7 (py "ann@example.org")] |}
  = (Account.Raise (Account.HTTPException 400
       (py "Recipe with this title already exists for the user")),
     {| Account.users_collection := [Samples.ann_doc];
        Account.favorites_collection :=
          [Samples.pie_doc 7 (py "ann@example.org")] |}) /\
  Spec.favorites_unique
    (Account.serve
       [(Samples.quiet 1000 "s" 7, Account.POST_users Samples.ann);
        (Samples.quiet 1000 "s" 7,
         Account.POST_recipes Samples.ann_token Samples.pie);
        (Samples.quiet 1001 "s" 8,
         Account.POST_recipes Samples.ann_token Samples.pie)]
       Account.empty_db).
Proof.
  assert (Hhas : Spec.has_favorite
            {| Account.users_collection := [Samples.ann_doc];
               Account.favorites_collection :=
                 [Samples.pie_doc 7 (py "ann@example.org")] |}
            (py "ann@example.org") (py "Pie")).
  { exists (Samples.pie_doc 7 (py "ann@example.org")).
    split; [now left | now split]. }
  destruct (@favorites_unique_invariant Samples.toy_libs)
    as (Hdup & _ & _ & Hserve).
  split; [exact Hhas|]. split.
  - exact (Hdup (Samples.quiet 1000 "s" 8) Samples.pie
             (Account.serialize_document Samples.ann_doc) _ Hhas).
  - apply Hserve.
Defined.

(** Requests served one after the other on the toy libraries: Ann signs
    up, logs in, saves a pie twice, and a second sign-up with her email is
    refused. *)
Example second_favorite_refused :
  let e := Samples.quiet 1000 "s" 7 in
  let s1 := snd (Account.route e (Account.POST_users Samples.ann)
                   Account.empty_db) in
  let s2 := snd (Account.route e
                   (Account.POST_recipes Samples.ann_token Samples.pie) s1) in
  s1 = Samples.ann_only /\
  Account.favorites_collection s2 = [Samples.pie_doc 7 (py "ann@example.org")] /\
  Account.route e (Account.POST_recipes Samples.ann_token Samples.pie) s2
  = (Account.Raise (Account.HTTPException 400
       (py "Recipe with this title already exists for the user")), s2) /\
  Account.route e (Account.POST_users Samples.ann) s2
  = (Account.Raise (Account.HTTPException 400
       (py "Email already registered")), s2).
Proof. repeat split. Qed.

(** A sign-up without a password reaches [pwd_context.hash] with [None]
    and stores nothing. *)
Example sign_up_without_password :
  Account.create_user (Samples.quiet 0 "s" 7) Samples.ann_as_bob
    Account.empty_db
  = (Account.Raise Account.TypeError, Account.empty_db).
Proof. reflexivity. Qed.

(** A token past its expiry no longer authenticates. *)
Example expired_token_rejected :
  Account.get_current_user (Samples.quiet 2001 "s" 1) Samples.ann_token
    Samples.ann_only
  = (Account.Raise (Account.HTTPException 401 (py "Invalid token")),
     Samples.ann_only).
Proof. reflexivity. Qed.

(* ================================================================= *)
(** ** The recipe search service: further properties *)

Section SearchFurther.
Import Spec Search.

Context {T : Lower}.

Variable py_eval : str -> evaluated.



(** X2: an error payload of [get_all_recipes] is the reply of
    [GET /all_recipes], but both searches hand it back inside
    [{"results": ...}]; the only error reply of the searches is their own
    400. *)
Theorem search_wraps_error_payload (ds : dataset) (r : JSONResponse) :
  get_all_recipes py_eval ds = Returns (Response r) ->
  get_all py_eval ds = Returns (Error r) /\
  (forall query, query <> [] ->
     search py_eval query ds = Returns (Results (Response r))) /\
  (forall request, request <> [] ->
     search_by_ingredients py_eval request ds
     = Returns (Results (Response r))) /\
  (forall query r', search py_eval query ds = Returns (Error r') ->
     query = [] /\ status_code r' = 400) /\
  (forall request r',
     search_by_ingredients py_eval request ds = Returns (Error r') ->
     request = [] /\ status_code r' = 400).
Proof.
  intros H. split; [unfold get_all; now rewrite H|].
  split; [|split; [|split]].
  - intros [|c q] Hq; [congruence|].
    unfold search, search_recipes. simpl. now rewrite H.
  - intros [|i req] Hq; [congruence|].
    unfold search_by_ingredients, search_recipes_by_ingredients.
    now rewrite H.
  - intros [|c q] r'.
    + intros [= <-]. now split.
    + unfold search, search_recipes. simpl. rewrite H. discriminate.
  - intros [|i req] r'.
    + intros [= <-]. now split.
    + unfold search_by_ingredients, search_recipes_by_ingredients.
      rewrite H. discriminate.
Qed.

Lemma forallb_same_members {A} (f : A -> bool) (l1 l2 : list A) :
  (forall a, In a l1 <-> In a l2) -> forallb f l1 = forallb f l2.
Proof.
  intros H. apply eq_true_iff_eq. rewrite !forallb_forall.
  split; intros Hf a Ha; apply Hf, H, Ha.
Qed.

Lemma forallb_set (f : str -> bool) (l : list str) :
  forallb f (set l) = forallb f l.
Proof.
  apply forallb_same_members. intro a. apply nodup_In.
Qed.

(** X3: the result of [GET /search] depends on the query only through the
    set of its lowered words: letter case, order, repetition and the
    amount of whitespace between the words do not matter. *)
Theorem search_depends_on_word_set (q1 q2 : str) (ds : dataset) :
  q1 <> [] -> q2 <> [] ->
  (forall w, In w (split (lower q1)) <-> In w (split (lower q2))) ->
  search py_eval q1 ds = search py_eval q2 ds.
Proof.
  intros H1 H2 Hsame.
  destruct q1 as [|c1 q1]; [congruence|].
  destruct q2 as [|c2 q2]; [congruence|].
  unfold search, search_recipes. simpl truthy. simpl negb. cbv iota.
  destruct (get_all_recipes py_eval ds) as [[recipes|r]|]; try reflexivity.
  do 3 f_equal. apply filter_ext. intro x. unfold name_filter.
  rewrite !forallb_set. now apply forallb_same_members.
Qed.

Lemma filter_andb {A} (f g : A -> bool) (l : list A) :
  filter (fun a => f a && g a) l = filter g (filter f l).
Proof.
  induction l as [|a l IH]; [reflexivity|]. simpl.
  destruct (f a); simpl; [destruct (g a); now rewrite IH | exact IH].
Qed.

(** X4: words are joined by "and": searching for [q1], a whitespace and
    [q2] gives the result of searching for [q1], filtered by the words of
    [q2]; so a longer query never returns more.  Lowering is taken to
    commute with the split in words, as [str.lower] does. *)
Theorem search_more_words_narrows (LS : LowerSplit T) (q1 q2 : str)
        (sp : code) (ds : dataset) (recipes : list recipe) :
  q1 <> [] -> isspace sp = true ->
  get_all_recipes py_eval ds = Returns (Recipes recipes) ->
  exists found,
    search py_eval q1 ds = Returns (Results (Recipes found)) /\
    search py_eval (q1 ++ sp :: q2) ds =
      Returns (Results (Recipes
        (filter (name_filter (set (split (lower q2)))) found))) /\
    incl (filter (name_filter (set (split (lower q2)))) found) found /\
    incl found recipes.
Proof.
  intros Hq Hsp Hcat. destruct q1 as [|c q1]; [congruence|].
  unfold search, search_recipes. simpl truthy. simpl negb. cbv iota.
  rewrite Hcat. eexists. split; [reflexivity|]. split.
  - do 3 f_equal. rewrite <- filter_andb. apply filter_ext. intro x.
    unfold name_filter. rewrite !forallb_set.
    change (c :: q1 ++ sp :: q2) with ((c :: q1) ++ sp :: q2).
    rewrite !lower_split. unfold split at 1.
    rewrite (split_from_app_blank (c :: q1) q2 [] sp Hsp), map_app.
    fold (split (c :: q1)). apply forallb_app.
  - split; apply incl_filter.
Qed.

Lemma filter_filter_forallb_app {A B} (test : B -> A -> bool)
      (l1 l2 : list B) (xs : list A) :
  filter (fun x => forallb (fun b => test b x) (l1 ++ l2)) xs =
  filter (fun x => forallb (fun b => test b x) l2)
         (filter (fun x => forallb (fun b => test b x) l1) xs).
Proof.
  rewrite <- filter_andb. apply filter_ext. intro x. apply forallb_app.
Qed.

(** X5: requested ingredients are joined by "and": the result for
    [r1 ++ r2] is the result for [r1] filtered by [r2]; and a recipe
    whose ingredient list is empty is never returned. *)
Theorem search_by_ingredients_narrows (r1 r2 : list str) (ds : dataset)
        (recipes : list recipe) :
  r1 <> [] ->
  get_all_recipes py_eval ds = Returns (Recipes recipes) ->
  exists found,
    search_by_ingredients py_eval r1 ds = Returns (Results (Recipes found)) /\
    search_by_ingredients py_eval (r1 ++ r2) ds =
      Returns (Results (Recipes
        (filter (ingredient_filter (map lower r2)) found))) /\
    incl found recipes /\
    forall x, In x found -> ingredients x <> [].
Proof.
  intros Hr Hcat. destruct r1 as [|i r1]; [congruence|].
  unfold search_by_ingredients, search_recipes_by_ingredients.
  simpl app. rewrite Hcat. eexists. split; [reflexivity|]. split.
  - do 3 f_equal. change (i :: r1 ++ r2) with ((i :: r1) ++ r2).
    rewrite map_app. unfold ingredient_filter.
    apply (filter_filter_forallb_app
             (fun ingredient x =>
                existsb (fun item => contains (lower ingredient) (lower item))
                        (ingredients x))).
  - split; [apply incl_filter|].
    intros x Hx Hnil. apply filter_In in Hx as [_ Hx].
    unfold ingredient_filter in Hx. simpl in Hx. rewrite Hnil in Hx.
    discriminate.
Qed.

End SearchFurther.

(* ================================================================= *)
(** ** The account service: what a request does to the database *)

Section AccountEffects.
Import Spec Account.
Context {L : Libs}.

Ltac unfold_handler :=
  unfold login_for_access_token, create_user, update_user,
    delete_user_account, add_favorite_recipe, delete_favorite_recipe,
    get_user_recipes, get_user_profile, get_password_hash,
    bind, with_users, with_favorites, ret, raise; simpl.

Lemma snd_fmap {A B} (f : A -> B) (m : M A) (s : db) :
  snd (fmap f m s) = snd (m s).
Proof.
  unfold fmap, bind, ret. now destruct (m s) as [[a|x] s1].
Qed.

Lemma create_user_effect (e : env) (user : User) (s : db) :
  effect s (snd (create_user e user s)) None.
Proof.
  unfold_handler.
  destruct (find_one (user_email_is (email user)) (users_collection s))
    eqn:Hfind.
  - apply effect_none. simpl. apply db_eta.
  - apply find_user_none in Hfind.
    destruct (value (password user)) as [p|]; simpl;
      [|apply effect_none; apply db_eta].
    destruct (pwd_hash (salt e) p) as [hashed|]; simpl.
    + eapply effect_sign_up; [|reflexivity]. exact Hfind.
    + apply effect_none. apply db_eta.
Qed.

Lemma update_users_effect (caller : str) (upd : set_document str) (s : db) :
  set_email upd = caller ->
  effect s
    {| users_collection :=
         snd (update_one user_fields_eqb (user_email_is caller)
                (apply_set upd) (users_collection s));
       favorites_collection := favorites_collection s |}
    (Some caller).
Proof.
  intros Hemail.
  destruct (find_one (user_email_is caller) (users_collection s))
    as [doc|] eqn:Hfind.
  - apply find_one_first in Hfind as (pre & post & Hs & Hq & Hpre).
    rewrite Hs at 1.
    rewrite (update_one_first _ _ _ _ post doc Hpre Hq).
    destruct (user_fields_eqb (keys doc) (apply_set upd (keys doc))); simpl.
    + apply effect_none. rewrite <- Hs. apply db_eta.
    + eapply effect_update; [exact Hs | | | reflexivity].
      * now apply str_eqb_eq in Hq.
      * exact Hemail.
  - pose proof (proj1 (find_one_none _ _) Hfind) as Hall.
    rewrite (update_one_none _ _ _ _ Hall). apply effect_none. apply db_eta.
Qed.

Lemma update_user_state (e : env) (user : User)
      (u : serialized user_fields) (s : db) :
  snd (update_user e user u s) = s \/
  exists upd,
    set_email upd = u_email (data u) /\
    snd (update_user e user u s) =
    {| users_collection :=
         snd (update_one user_fields_eqb (user_email_is (u_email (data u)))
                (apply_set upd) (users_collection s));
       favorites_collection := favorites_collection s |}.
Proof.
  rewrite update_user_run.
  destruct (str_eqb (u_email (data u)) (email user)) eqn:He;
    [|now left].
  apply str_eqb_eq in He. simpl negb. cbv iota.
  destruct (image_verdict e (value (profile_image user))) as [[|]|x];
    [now left | | now left].
  assert (Hsent : set_email (sent_update e user) = u_email (data u))
    by (simpl; now symmetry).
  destruct (password user) as [|[p|]] eqn:Hp; [| |now left].
  - right. exists (sent_update e user). split; [exact Hsent|].
    destruct (update_one _ _ _ _) as [n c]. reflexivity.
  - destruct (pwd_hash (salt e) p) as [hashed|]; [|now left].
    right. exists (sent_update e user). split; [exact Hsent|].
    destruct (update_one _ _ _ _) as [n c]. reflexivity.
Qed.

Lemma update_user_effect (e : env) (user : User)
      (u : serialized user_fields) (s : db) :
  effect s (snd (update_user e user u s)) (Some (u_email (data u))).
Proof.
  destruct (update_user_state e user u s) as [->|(upd & Hemail & ->)].
  - now apply effect_none.
  - now apply update_users_effect.
Qed.

Lemma login_state (e : env) (form_data : LoginForm) (s : db) :
  snd (login_for_access_token e form_data s) = s.
Proof.
  unfold_handler. destruct (find_one _ _) as [doc|]; simpl;
    [|apply db_eta].
  unfold verify_password, ret, raise.
  destruct (pwd_verify _ _) as [[|]|]; simpl; apply db_eta.
Qed.

Lemma delete_user_account_state (u : serialized user_fields) (s : db) :
  snd (delete_user_account u s) =
  {| users_collection :=
       snd (delete_one (user_email_is (u_email (data u)))
              (users_collection s));
     favorites_collection :=
       delete_many (fav_email_is (u_email (data u)))
                   (favorites_collection s) |}.
Proof.
  unfold_handler. destruct (delete_one _ (users_collection s)) as [n c].
  simpl. now destruct (n =? 0).
Qed.

Lemma add_favorite_recipe_effect (e : env) (recipe : FavoriteRecipe)
      (u : serialized user_fields) (s : db) :
  registered s (u_email (data u)) ->
  effect s (snd (add_favorite_recipe e recipe u s))
         (Some (u_email (data u))).
Proof.
  intros Hreg. unfold_handler.
  destruct (find_one _ (favorites_collection s)) eqn:Hfind; simpl.
  - apply effect_none. apply db_eta.
  - apply find_favorite_none in Hfind.
    eapply effect_add_favorite; [exact Hreg | | | reflexivity].
    + reflexivity.
    + exact Hfind.
Qed.

Lemma get_user_recipes_state (title : option str)
      (u : serialized user_fields) (s : db) :
  snd (get_user_recipes title u s) = s.
Proof. unfold_handler. apply db_eta. Qed.

Lemma delete_favorite_recipe_effect (title : str)
      (u : serialized user_fields) (s : db) :
  effect s (snd (delete_favorite_recipe title u s))
         (Some (u_email (data u))).
Proof.
  unfold_handler.
  destruct (find_one _ (favorites_collection s)) eqn:Hfind; simpl.
  - apply effect_delete_favorite with (name := title).
    destruct (delete_one _ (favorites_collection s)) as [n c]. reflexivity.
  - apply effect_none. apply db_eta.
Qed.

(** The database after a route that declares [Depends(get_current_user)]:
    untouched when the token does not authenticate, and what the handler
    leaves otherwise. *)
Lemma depends_state {A} (e : env) (token : Token)
      (handler : serialized user_fields -> M A) (s : db) :
  match fst (get_current_user e token s) with
  | Ok u => snd (depends_current_user e token handler s) = snd (handler u s)
  | Raise _ => snd (depends_current_user e token handler s) = s
  end.
Proof.
  unfold depends_current_user, bind.
  pose proof (get_current_user_state e token s) as Hs.
  destruct (get_current_user e token s) as [[u|x] s1]; simpl in *;
    now subst s1.
Qed.

Lemma authenticated_registered (e : env) (token : Token) (s : db)
      (u : serialized user_fields) :
  fst (get_current_user e token s) = Ok u ->
  registered s (u_email (data u)).
Proof.
  intros H.
  destruct (get_current_user e token s) as [r s1] eqn:Hauth.
  simpl in H. subst r.
  destruct (get_current_user_ok _ _ _ Hauth)
    as (_ & claims & subject & doc & _ & _ & _ & Hdoc & ->).
  simpl. rewrite (user_of_email Hdoc).
  eapply user_of_registered. exact Hdoc.
Qed.

Lemma route_step (e : env) (r : request) (s : db) :
  effect s (snd (route e r s)) (caller_of e r s).
Proof.
  destruct r as [user|token user|form|token|token|token recipe|token title
                 |token title]; unfold route, caller_of; simpl token_of;
    rewrite snd_fmap.
  - apply create_user_effect.
  - pose proof (depends_state e token (update_user e user) s) as H.
    destruct (fst (get_current_user e token s)) as [u|x]; rewrite H;
      [apply update_user_effect | now apply effect_none].
  - apply effect_none. apply login_state.
  - pose proof (depends_state e token get_user_profile s) as H.
    destruct (fst (get_current_user e token s)) as [u|x]; rewrite H;
      now apply effect_none.
  - pose proof (depends_state e token delete_user_account s) as H.
    destruct (fst (get_current_user e token s)) as [u|x]; rewrite H;
      [|now apply effect_none].
    apply effect_delete_account. apply delete_user_account_state.
  - pose proof (depends_state e token (add_favorite_recipe e recipe) s) as H.
    pose proof (authenticated_registered e token s) as Hreg.
    destruct (fst (get_current_user e token s)) as [u|x]; rewrite H;
      [|now apply effect_none].
    apply add_favorite_recipe_effect. now apply Hreg.
  - pose proof (depends_state e token (get_user_recipes title) s) as H.
    destruct (fst (get_current_user e token s)) as [u|x]; rewrite H;
      [|now apply effect_none].
    apply effect_none. apply get_user_recipes_state.
  - pose proof (depends_state e token (delete_favorite_recipe title) s) as H.
    destruct (fst (get_current_user e token s)) as [u|x]; rewrite H;
      [|now apply effect_none].
    apply delete_favorite_recipe_effect.
Qed.

(** X6: a request does one of six things to the database: nothing, a
    sign-up appending a user with a new email, a rewrite of one record of
    the caller that keeps its email and identifier, the deletion of the
    caller's account and favorites, the insertion of one favorite of the
    caller whose name is new for them, the deletion of one favorite of
    the caller; a sequence of requests is a chain of such steps. *)
Theorem serve_effects :
  (forall (e : env) (r : request) (s : db),
      effect s (snd (route e r s)) (caller_of e r s)) /\
  (forall (trace : list (env * request)) (s : db),
      clos_refl_trans db (fun a b => exists who, effect a b who)
                      s (serve trace s)).
Proof.
  split; [exact route_step|].
  induction trace as [|[e r] trace IH]; intros s; simpl.
  - apply rt_refl.
  - eapply rt_trans; [apply rt_step|apply IH].
    exists (caller_of e r s). apply route_step.
Qed.

Lemma registered_email_in (s : db) (e : str) :
  registered s e <->
  In e (map (fun d => u_email (keys d)) (users_collection s)).
Proof.
  unfold registered. rewrite in_map_iff. split.
  - intros (d & Hd & He). now exists d.
  - intros (d & He & Hd). now exists d.
Qed.

Lemma effect_users_unique (s s' : db) (who : option str) :
  effect s s' who -> users_unique s -> users_unique s'.
Proof.
  unfold users_unique.
  intros [who' ->|d Hnew ->|caller pre post doc new Hs Hdoc Hnew ->
          |caller ->|caller d _ _ _ ->|caller name ->] H; simpl;
    try exact H.
  - rewrite map_app. simpl.
    apply NoDup_app; [exact H | repeat constructor; intros [] |].
    intros a Ha [<-|[]]. apply Hnew. now apply registered_email_in.
  - rewrite Hs in H. rewrite map_app in *. simpl in *.
    now rewrite Hnew, <- Hdoc.
  - now apply NoDup_map_delete_one.
Qed.

Lemma delete_one_keeps {A} (query : A -> bool) (c : collection A)
      (x : document A) :
  In x c -> query (keys x) = false -> In x (snd (delete_one query c)).
Proof.
  intros Hx Hq. induction c as [|y c IH]; [destruct Hx|]. simpl.
  destruct Hx as [->|Hx].
  - rewrite Hq. destruct (delete_one query c). now left.
  - destruct (query (keys y)); [exact Hx|].
    specialize (IH Hx). destruct (delete_one query c). now right.
Qed.

Lemma effect_no_orphans (s s' : db) (who : option str) :
  effect s s' who -> no_orphans s -> no_orphans s'.
Proof.
  unfold no_orphans, registered.
  intros [who' ->|d Hnew ->|caller pre post doc new Hs Hdoc Hnew ->
          |caller ->|caller d Hreg Hown _ ->|caller name ->] H x Hx;
    simpl in *.
  - now apply H.
  - destruct (H x Hx) as (y & Hy & Ey). exists y.
    split; [apply in_or_app; now left | exact Ey].
  - destruct (H x Hx) as (y & Hy & Ey). rewrite Hs in Hy.
    apply in_app_or in Hy as [Hy|[<-|Hy]].
    + exists y. split; [apply in_or_app; now left | exact Ey].
    + exists {| _id := _id doc; keys := new |}.
      split; [apply in_elt | simpl; congruence].
    + exists y. split; [apply in_or_app; right; now right | exact Ey].
  - apply filter_In in Hx as [Hx Hother].
    destruct (H x Hx) as (y & Hy & Ey). exists y. split; [|exact Ey].
    apply delete_one_keeps; [exact Hy|].
    unfold user_email_is. rewrite Ey.
    unfold fav_email_is in Hother. now apply negb_true_iff in Hother.
  - apply in_app_or in Hx as [Hx|[<-|[]]]; [now apply H|].
    now rewrite Hown.
  - apply H. eapply delete_one_incl. exact Hx.
Qed.

Lemma filter_delete_one {A} (keep : document A -> bool) (query : A -> bool)
      (c : collection A) :
  (forall x, query (keys x) = true -> keep x = false) ->
  filter keep (snd (delete_one query c)) = filter keep c.
Proof.
  intros H. induction c as [|y c IH]; [reflexivity|]. simpl.
  destruct (query (keys y)) eqn:Hq.
  - simpl. now rewrite (H y Hq).
  - destruct (delete_one query c) as [n c']. simpl in *. now rewrite IH.
Qed.

Lemma filter_idem {A} (f : A -> bool) (l : list A) :
  filter f (filter f l) = filter f l.
Proof.
  induction l as [|a l IH]; [reflexivity|]. simpl.
  destruct (f a) eqn:Hf; [simpl; now rewrite Hf, IH | exact IH].
Qed.

(** What a step made for [caller] leaves of the others. *)
Lemma effect_others (s s' : db) (caller : str) :
  effect s s' (Some caller) ->
  users_of_others caller s' = users_of_others caller s /\
  favorites_of_others caller s' = favorites_of_others caller s.
Proof.
  unfold users_of_others, favorites_of_others.
  intros H. inversion H as [who' ->| |c pre post doc new Hs Hdoc Hnew ->
                            |c -> |c d _ Hown _ ->|c name ->];
    subst; simpl.
  - now split.
  - split; [|reflexivity]. rewrite Hs, !filter_app. simpl.
    unfold user_email_is. simpl. rewrite Hnew, !str_eqb_refl. reflexivity.
  - split.
    + apply filter_delete_one. intros x Hx. now rewrite Hx.
    + unfold delete_many. apply filter_idem.
  - split; [reflexivity|]. rewrite filter_app. simpl.
    unfold fav_email_is. simpl. rewrite str_eqb_refl. simpl.
    apply app_nil_r.
  - split; [reflexivity|]. apply filter_delete_one. intros x Hx.
    unfold fav_email_name_is in Hx. apply andb_true_iff in Hx as [Hx _].
    unfold fav_email_is. now rewrite Hx.
Qed.

Lemma serve_invariant (P : db -> Prop) :
  (forall s s' who, effect s s' who -> P s -> P s') ->
  forall trace s, P s -> P (serve trace s).
Proof.
  intros Hstep. induction trace as [|[e r] trace IH]; intros s H; [exact H|].
  simpl. apply IH. eapply Hstep; [apply route_step | exact H].
Qed.

(** X7: no request makes two stored users share an email; emails are
    distinct after any sequence of requests served from empty
    collections. *)
Theorem users_unique_invariant :
  (forall (e : env) (r : request) (s : db),
      users_unique s -> users_unique (snd (route e r s))) /\
  (forall trace : list (env * request),
      users_unique (serve trace empty_db)).
Proof.
  split.
  - intros e r s H. eapply effect_users_unique; [apply route_step | exact H].
  - intros trace. apply (serve_invariant users_unique).
    + intros s s' who. apply effect_users_unique.
    + constructor.
Qed.

(** X8: no request leaves a favorite whose owner is not a stored user;
    after any sequence of requests served from empty collections every
    favorite belongs to a stored user. *)
Theorem no_orphans_invariant :
  (forall (e : env) (r : request) (s : db),
      no_orphans s -> no_orphans (snd (route e r s))) /\
  (forall trace : list (env * request),
      no_orphans (serve trace empty_db)).
Proof.
  split.
  - intros e r s H. eapply effect_no_orphans; [apply route_step | exact H].
  - intros trace. apply (serve_invariant no_orphans).
    + intros s s' who. apply effect_no_orphans.
    + intros d [].
Qed.

(** X9: a request made with a token that authenticates a user writes
    nothing under another email: the users and the favorites of the
    others are what they were. *)
Theorem request_touches_only_caller (e : env) (r : request) (s : db)
        (token : Token) (u : serialized user_fields) :
  token_of r = Some token ->
  fst (get_current_user e token s) = Ok u ->
  users_of_others (u_email (data u)) (snd (route e r s))
  = users_of_others (u_email (data u)) s /\
  favorites_of_others (u_email (data u)) (snd (route e r s))
  = favorites_of_others (u_email (data u)) s.
Proof.
  intros Htok Hauth. apply effect_others.
  pose proof (route_step e r s) as H. unfold caller_of in H.
  now rewrite Htok, Hauth in H.
Qed.

Lemma get_current_user_raises (e : env) (token : Token) (s : db) (x : exn) :
  fst (get_current_user e token s) = Raise x ->
  exists detail, x = HTTPException 401 detail.
Proof.
  unfold get_current_user, bind, with_users, ret, raise.
  destruct (jwt_decode token (now e)) as [claims|];
    [|intros [= <-]; eauto].
  destruct (sub claims) as [[|c subject]|]; simpl;
    try (intros [= <-]; eauto).
  destruct (find_one _ _); simpl; [discriminate | intros [= <-]; eauto].
Qed.

(** X10: the six routes that declare [Depends(get_current_user)] answer
    what it raises, always a 401, and write nothing when the token does
    not authenticate. *)
Theorem unauthenticated_request_refused (e : env) (r : request) (s : db)
        (token : Token) (x : exn) :
  token_of r = Some token ->
  fst (get_current_user e token s) = Raise x ->
  route e r s = (Raise x, s) /\
  exists detail, x = HTTPException 401 detail.
Proof.
  intros Htok Hauth. split; [|eapply get_current_user_raises; eassumption].
  pose proof (get_current_user_state e token s) as Hs.
  destruct (get_current_user e token s) as [res s1] eqn:Hrun.
  simpl in Hauth, Hs. subst res s1.
  destruct r; simpl in Htok; try discriminate; injection Htok as ->;
    unfold route, fmap, depends_current_user, bind at 1 2;
    now rewrite Hrun.
Qed.

(** X11: [get_current_user] writes nothing, fails with 401 only, and
    succeeds exactly when the token decodes to a non-empty subject that
    is the email of a stored user; it then returns the first such user,
    serialized. *)
Theorem get_current_user_spec (e : env) (token : Token) (s : db) :
  let r := get_current_user e token s in
  snd r = s /\
  (forall u,
      fst r = Ok u <->
      exists claims subject doc,
        jwt_decode token (now e) = Some claims /\
        sub claims = Some subject /\ subject <> [] /\
        user_of s subject doc /\ u = serialize_document doc) /\
  (forall x, fst r = Raise x -> exists detail, x = HTTPException 401 detail).
Proof.
  intros r. subst r. split; [apply get_current_user_state|].
  split; [|intros x; apply get_current_user_raises].
  intros u. split.
  - intros H. destruct (get_current_user e token s) as [res s1] eqn:Hrun.
    simpl in H. subst res.
    now destruct (get_current_user_ok _ _ _ Hrun) as [_ Hex].
  - intros (claims & subject & doc & Hdec & Hsub & Hne & Hdoc & ->).
    apply find_one_first in Hdoc.
    unfold get_current_user, bind, with_users, ret, raise.
    rewrite Hdec, Hsub. destruct subject as [|c subject]; [congruence|].
    simpl. now rewrite Hdoc.
Qed.

End AccountEffects.

(* ================================================================= *)
(** ** The account service: how the operations compose *)

Section AccountRoundTrips.
Import Spec Account.
Context {L : Libs}.

Ltac unfold_handler :=
  unfold login_for_access_token, create_user, update_user,
    delete_user_account, add_favorite_recipe, delete_favorite_recipe,
    get_user_recipes, get_user_profile, get_password_hash,
    get_current_user, bind, with_users, with_favorites, ret, raise; simpl.

Lemma find_one_app_skip {A} (query : A -> bool) (c l : collection A) :
  (forall d, In d c -> query (keys d) = false) ->
  find_one query (c ++ l) = find_one query l.
Proof.
  intros H. induction c as [|x c IH]; [reflexivity|]. simpl.
  unfold find_one in *. simpl. rewrite (H x (or_introl eq_refl)).
  apply IH. intros d Hd. apply H. now right.
Qed.

Lemma find_all_none {A} (query : A -> bool) (c : collection A) :
  (forall d, In d c -> query (keys d) = false) ->
  filter (fun d => query (keys d)) c = [].
Proof.
  intros H. induction c as [|x c IH]; [reflexivity|]. simpl.
  rewrite (H x (or_introl eq_refl)). apply IH.
  intros d Hd. apply H. now right.
Qed.

Lemma login_finds (e : env) (form_data : LoginForm) (s : db)
      (doc : document user_fields) :
  find_one (user_email_is (form_username form_data)) (users_collection s)
  = Some doc ->
  pwd_verify (form_password form_data) (u_password (keys doc))
  = Some true ->
  login_for_access_token e form_data s =
  (Ok {| access_token :=
           create_access_token e
             {| sub := Some (u_email (keys doc)); exp := None |} None;
         token_type := py "bearer" |}, s).
Proof.
  intros Hfind Hv. unfold_handler. rewrite Hfind. unfold verify_password.
  rewrite Hv. simpl. now rewrite db_eta.
Qed.

(** What a successful [create_user] tells: the email was free, a
    password was given, the library hashed it, and one user was
    appended. *)
Lemma create_user_ok (e : env) (user : User) (s s1 : db) (msg : str) :
  create_user e user s = (Ok msg, s1) ->
  ~ registered s (email user) /\
  exists p hashed,
    value (password user) = Some p /\
    pwd_hash (salt e) p = Some hashed /\
    s1 = {| users_collection :=
              users_collection s ++
              [{| _id := new_oid e;
                  keys := {| u_name := name user; u_email := email user;
                             u_password := hashed;
                             u_profile_image :=
                               value (profile_image user) |} |}];
            favorites_collection := favorites_collection s |}.
Proof.
  unfold_handler.
  destruct (find_one (user_email_is (email user)) (users_collection s))
    eqn:Hfind; [discriminate|].
  apply find_user_none in Hfind.
  destruct (value (password user)) as [p|]; [|discriminate]. simpl.
  destruct (pwd_hash (salt e) p) as [hashed|] eqn:Hhash; [|discriminate].
  simpl. intros [= _ <-]. split; [exact Hfind|]. now exists p, hashed.
Qed.

(** X12: a user who signed up can log in: after a sign-up that
    succeeded, a login with its email and password returns a bearer
    token and writes nothing. *)
Theorem sign_up_then_login (PL : PasswordLaws L) (e e' : env) (user : User)
        (p msg : str) (s s1 : db) :
  create_user e user s = (Ok msg, s1) ->
  value (password user) = Some p ->
  registered s1 (email user) /\
  exists token,
    login_for_access_token e'
      {| form_username := email user; form_password := p |} s1
    = (Ok {| access_token := token; token_type := py "bearer" |}, s1).
Proof.
  intros Hok Hp.
  destruct (create_user_ok _ _ _ Hok) as (Hfree & p' & hashed & Hp' & Hh & ->).
  assert (p' = p) as -> by congruence.
  apply find_user_none in Hfree.
  pose proof (proj1 (find_one_none _ _) Hfree) as Hall.
  split.
  - eexists. split; [apply in_or_app; right; now left|].
    reflexivity.
  - eexists. apply login_finds.
    + simpl. rewrite (find_one_app_skip _ _ _ Hall).
      unfold find_one, user_email_is. simpl. rewrite str_eqb_refl.
      reflexivity.
    + simpl. eapply verify_own_hash. exact Hh.
Qed.

Lemma login_ok_token (e : env) (form_data : LoginForm) (s s' : db)
      (t : TokenModel) :
  login_for_access_token e form_data s = (Ok t, s') ->
  access_token t =
  jwt_encode {| sub := Some (form_username form_data);
                exp := Some (now e + 30 * 60)%Z |}.
Proof.
  unfold_handler.
  destruct (find_one _ _) as [doc|] eqn:Hfind; [|discriminate].
  unfold verify_password, ret, raise.
  destruct (pwd_verify _ _) as [[|]|]; simpl; [|discriminate..].
  intros H. injection H as <- _. simpl.
  apply find_one_first, user_of_email in Hfind.
  unfold create_access_token. simpl. now rewrite Hfind.
Qed.

(** X13: the token of a successful login authenticates its user for the
    next 30 minutes: at any time up to [now + 30 * 60], on any database
    that still holds a user with that email (not the empty string),
    [get_current_user] returns that user. *)
Theorem login_then_authenticate (LL : LibsLaws L) (e e' : env)
        (form_data : LoginForm) (s s0 s' : db) (t : TokenModel)
        (doc : document user_fields) :
  login_for_access_token e form_data s = (Ok t, s0) ->
  (now e' <= now e + 30 * 60)%Z ->
  form_username form_data <> [] ->
  user_of s' (form_username form_data) doc ->
  get_current_user e' (access_token t) s' = (Ok (serialize_document doc), s').
Proof.
  intros Hlogin Hnow Hne Hdoc.
  rewrite (login_ok_token _ _ _ Hlogin).
  unfold_handler.
  erewrite jwt_roundtrip; [|reflexivity|exact Hnow].
  simpl. destruct (form_username form_data) as [|c name] eqn:Hname;
    [congruence|]. simpl.
  apply find_one_first in Hdoc. rewrite Hdoc. now rewrite db_eta.
Qed.

(** X14: later than 30 minutes after the login the token is refused with
    401 "Invalid token", whatever the database holds. *)
Theorem login_token_expires (EL : ExpiryLaw L) (e e' : env)
        (form_data : LoginForm) (s s0 s' : db) (t : TokenModel) :
  login_for_access_token e form_data s = (Ok t, s0) ->
  (now e + 30 * 60 < now e')%Z ->
  get_current_user e' (access_token t) s' =
  (Raise (HTTPException 401 (py "Invalid token")), s').
Proof.
  intros Hlogin Hnow. rewrite (login_ok_token _ _ _ Hlogin).
  unfold_handler.
  erewrite jwt_expired; [reflexivity|reflexivity|exact Hnow].
Qed.

Lemma delete_one_unique_gone (caller : str) (c : collection user_fields) :
  NoDup (map (fun d => u_email (keys d)) c) ->
  forall x, In x (snd (delete_one (user_email_is caller) c)) ->
            u_email (keys x) <> caller.
Proof.
  induction c as [|y c IH]; intros Hnd x Hx; [destruct Hx|].
  inversion Hnd as [|? ? Hnotin Hrest]; subst. simpl in Hx.
  unfold user_email_is at 1 in Hx.
  destruct (str_eqb (u_email (keys y)) caller) eqn:Hy.
  - apply str_eqb_eq in Hy. simpl in Hx. intros Heq. apply Hnotin.
    apply in_map_iff. exists x. split; [congruence | exact Hx].
  - destruct (delete_one (user_email_is caller) c) as [n c'] eqn:Hdel.
    simpl in *. destruct Hx as [<-|Hx].
    + now apply str_eqb_neq.
    + now apply IH.
Qed.

(** X15: once [DELETE /users/delete_account/] has succeeded on a
    database with distinct emails, no user and no favorite is left under
    the caller's email, a login with that email is refused, and a token
    whose subject is that email no longer authenticates. *)
Theorem account_deletion_is_final (e e' : env) (token token' : Token)
        (u : serialized user_fields) (s : db) (form_data : LoginForm)
        (claims : payload) :
  users_unique s ->
  fst (get_current_user e token s) = Ok u ->
  form_username form_data = u_email (data u) ->
  jwt_decode token' (now e') = Some claims ->
  sub claims = Some (u_email (data u)) ->
  let s' := snd (route e (DELETE_users_delete_account token) s) in
  fst (route e (DELETE_users_delete_account token) s) =
    Ok (Message
          (py "User account and associated data deleted successfully")) /\
  ~ registered s' (u_email (data u)) /\
  (forall d, In d (favorites_collection s') ->
             f_email (keys d) <> u_email (data u)) /\
  login_for_access_token e' form_data s' =
    (Raise (HTTPException 401 (py "Invalid email or password")), s') /\
  get_current_user e' token' s' =
    (Raise (HTTPException 401 (py "User not found")), s').
Proof.
  intros Huniq Hauth Hform Hdec Hsub s'.
  assert (Hreg : registered s (u_email (data u)))
    by (eapply authenticated_registered; eassumption).
  assert (Hne : u_email (data u) <> []).
  { destruct (get_current_user e token s) as [res s1] eqn:Hrun.
    simpl in Hauth. subst res.
    destruct (get_current_user_ok _ _ _ Hrun)
      as (_ & c & subject & doc & _ & _ & Hne & Hdoc & ->).
    simpl. now rewrite (user_of_email Hdoc). }
  pose proof (get_current_user_state e token s) as Hst.
  assert (Hroute : route e (DELETE_users_delete_account token) s =
            let (r, s1) := delete_user_account u s in
            (match r with Ok m => Ok (Message m) | Raise x => Raise x end,
             s1)).
  { unfold route, fmap, depends_current_user, bind, ret.
    destruct (get_current_user e token s) as [res s1].
    simpl in Hauth, Hst. subst res s1.
    destruct (delete_user_account u s) as [[m|x] s1]; reflexivity. }
  assert (Hs' : s' =
            {| users_collection :=
                 snd (delete_one (user_email_is (u_email (data u)))
                        (users_collection s));
               favorites_collection :=
                 delete_many (fav_email_is (u_email (data u)))
                             (favorites_collection s) |}).
  { subst s'. rewrite Hroute, <- delete_user_account_state.
    now destruct (delete_user_account u s). }
  assert (Hgone : ~ registered s' (u_email (data u))).
  { intros (d & Hd & Hemail). rewrite Hs' in Hd. simpl in Hd.
    exact (delete_one_unique_gone _ Huniq d Hd Hemail). }
  split.
  { rewrite Hroute.
    pose proof (delete_user_account_found _ Hreg) as Hok.
    destruct (delete_user_account u s) as [[m|x] s1]; simpl in *;
      [now injection Hok as -> | discriminate]. }
  split; [exact Hgone|]. split.
  { intros d Hd. rewrite Hs' in Hd. simpl in Hd.
    apply filter_In in Hd as [_ Hd]. unfold fav_email_is in Hd.
    now apply negb_true_iff, str_eqb_neq in Hd. }
  apply find_user_none in Hgone. split.
  - unfold_handler. rewrite Hform, Hgone. simpl. now rewrite db_eta.
  - unfold_handler. rewrite Hdec, Hsub.
    destruct (u_email (data u)) as [|c name] eqn:Hname; [congruence|].
    simpl. rewrite Hgone. simpl. now rewrite db_eta.
Qed.

(** X16: [delete_favorite_recipe] answers 404 and writes nothing when the
    caller has no favorite of that name; otherwise it removes the first
    one and nothing else, and if the pairs (email, name) were distinct the
    caller has none of that name afterwards. *)
Theorem delete_favorite_recipe_spec (title : str)
        (u : serialized user_fields) (s : db) :
  let caller := u_email (data u) in
  (~ has_favorite s caller title ->
   delete_favorite_recipe title u s =
   (Raise (HTTPException 404
      (py "Recipe not found or you don't have permission to delete it")),
    s)) /\
  (has_favorite s caller title ->
   exists pre d post,
     favorites_collection s = pre ++ d :: post /\
     fav_key d = (caller, title) /\
     (forall x, In x pre -> fav_key x <> (caller, title)) /\
     delete_favorite_recipe title u s =
     (Ok (py "Recipe deleted successfully"),
      {| users_collection := users_collection s;
         favorites_collection := pre ++ post |}) /\
     (favorites_unique s ->
      ~ has_favorite (snd (delete_favorite_recipe title u s)) caller title)).
Proof.
  intros caller. split.
  - intros Hnone. apply find_favorite_none in Hnone.
    unfold_handler. fold caller. rewrite Hnone. simpl. now rewrite db_eta.
  - intros Hhas.
    destruct (find_one (fav_email_name_is caller title)
                       (favorites_collection s)) as [d|] eqn:Hfind;
      [|apply find_favorite_none in Hfind; contradiction].
    pose proof Hfind as Hfirst.
    apply find_one_first in Hfirst as (pre & post & Hs & Hq & Hpre).
    assert (Hkey : forall x, fav_email_name_is caller title (keys x) = true
                             <-> fav_key x = (caller, title)).
    { intros x. unfold fav_email_name_is, fav_key.
      rewrite andb_true_iff, !str_eqb_eq. split.
      - intros [-> ->]. reflexivity.
      - intros [= -> ->]. now split. }
    assert (Hrun : delete_favorite_recipe title u s =
              (Ok (py "Recipe deleted successfully"),
               {| users_collection := users_collection s;
                  favorites_collection := pre ++ post |})).
    { unfold_handler. fold caller. rewrite Hfind. simpl.
      rewrite Hs at 1.
      now rewrite (delete_one_first _ pre post d Hpre Hq). }
    exists pre, d, post. split; [exact Hs|]. split; [now apply Hkey|].
    split.
    { intros x Hx Hk. apply Hkey in Hk. rewrite (Hpre x Hx) in Hk.
      discriminate. }
    split; [exact Hrun|].
    intros Huniq (x & Hx & He & Hn). rewrite Hrun in Hx. simpl in Hx.
    unfold favorites_unique in Huniq. rewrite Hs, map_app in Huniq.
    simpl in Huniq. apply NoDup_remove_2 in Huniq. apply Huniq.
    rewrite <- map_app. apply in_map_iff. exists x. split; [|exact Hx].
    apply Hkey in Hq. rewrite Hq. unfold fav_key. now rewrite He, Hn.
Qed.

(** X17: [get_user_recipes] writes nothing and returns, serialized and
    in stored order, exactly the favorites stored under the caller's
    email, narrowed to the given name when a non-empty one is given; an
    empty title is no filter. *)
Theorem get_user_recipes_spec (title : option str)
        (u : serialized user_fields) (s : db) :
  let caller := u_email (data u) in
  let wanted (d : document favorite_fields) :=
    f_email (keys d) = caller /\
    match title with
    | Some (c :: t) => f_name (keys d) = c :: t
    | _ => True
    end in
  exists found,
    get_user_recipes title u s = (Ok (map serialize_document found), s) /\
    selects wanted (favorites_collection s) found.
Proof.
  intros caller wanted. unfold_handler. fold caller. rewrite db_eta.
  eexists. split; [reflexivity|].
  unfold find_all. eexists. split; [|reflexivity].
  intros d. subst wanted. simpl.
  destruct title as [[|c t]|]; simpl;
    unfold fav_email_name_is, fav_email_is;
    rewrite ?andb_true_iff, ?str_eqb_eq; tauto.
Qed.

(** X18: a favorite that was added is listed: after a successful
    [add_favorite_recipe] under a non-empty name, listing the caller's
    favorites of that name returns the new record alone. *)
Theorem add_then_list (e : env) (recipe : FavoriteRecipe)
        (u : serialized user_fields) (s : db) :
  fav_name recipe <> [] ->
  ~ has_favorite s (u_email (data u)) (fav_name recipe) ->
  let s' := snd (add_favorite_recipe e recipe u s) in
  get_user_recipes (Some (fav_name recipe)) u s' =
  (Ok [{| id := oid_str (new_oid e);
          data := {| f_image := fav_image recipe;
                     f_name := fav_name recipe;
                     f_ingredients := fav_ingredients recipe;
                     f_instructions := fav_instructions recipe;
                     f_email := u_email (data u) |} |}], s').
Proof.
  intros Hname Hnew s'. apply find_favorite_none in Hnew.
  pose proof (proj1 (find_one_none _ _) Hnew) as Hall.
  assert (Hs' : s' =
            {| users_collection := users_collection s;
               favorites_collection :=
                 insert_one (new_oid e)
                   {| f_image := fav_image recipe;
                      f_name := fav_name recipe;
                      f_ingredients := fav_ingredients recipe;
                      f_instructions := fav_instructions recipe;
                      f_email := u_email (data u) |}
                   (favorites_collection s) |}).
  { subst s'. unfold_handler. now rewrite Hnew. }
  rewrite Hs'. unfold_handler.
  destruct (fav_name recipe) as [|c t] eqn:Hn; [congruence|]. simpl.
  unfold find_all, insert_one. rewrite filter_app. simpl.
  unfold fav_email_name_is at 2. simpl. rewrite !str_eqb_refl. simpl.
  now rewrite (find_all_none _ _ Hall).
Qed.

(** X19: on a profile update of the caller's own record whose image
    address is not empty, a fetch that fails with a
    [RequestException], or that answers otherwise than 200 with a
    [Content-Type] containing "image" (a missing header included), is
    refused with 400; any other exception of the fetch leaves the handler
    as it is; in both cases nothing is written. *)
Theorem update_user_checks_image (e : env) (user : User)
        (u : serialized user_fields) (s : db) (url : str) :
  u_email (data u) = email user ->
  value (profile_image user) = Some url ->
  url <> [] ->
  (requests_get e url <> FetchRaises ->
   ~ (exists response content_type,
         requests_get e url = Answers response /\
         resp_status_code response = 200 /\
         resp_content_type response = Some content_type /\
         substring (py "image") content_type) ->
   update_user e user u s =
   (Raise (HTTPException 400 (py "Provided image URL is not accessible")),
    s)) /\
  (requests_get e url = FetchRaises ->
   update_user e user u s = (Raise FetchError, s)).
Proof.
  intros Hemail Hurl Hne.
  rewrite update_user_run, Hemail, str_eqb_refl, Hurl. simpl negb. cbv iota.
  destruct url as [|c url]; [congruence|]. unfold image_verdict. split.
  - intros Hfetch Hbad.
    destruct (requests_get e (c :: url)) as [response| |];
      [|reflexivity|congruence].
    destruct (is_image response) eqn:Ht; [|reflexivity].
    unfold is_image in Ht. apply andb_true_iff in Ht as [Hstatus Hct].
    apply Nat.eqb_eq in Hstatus. apply contains_spec in Hct.
    destruct (resp_content_type response) as [t|] eqn:Htype.
    + destruct Hbad. now exists response, t.
    + destruct Hct as (pre & post & Hct). destruct pre; discriminate.
  - intros ->. reflexivity.
Qed.

(** X20: after a successful profile update that gives a password, a
    login with the caller's email and the new password succeeds. *)
Theorem update_password_then_login (PL : PasswordLaws L) (e e' : env)
        (user : User) (u : serialized user_fields) (s s' : db)
        (msg p : str) :
  update_user e user u s = (Ok msg, s') ->
  password user = Given (Some p) ->
  exists token,
    login_for_access_token e'
      {| form_username := email user; form_password := p |} s'
    = (Ok {| access_token := token; token_type := py "bearer" |}, s').
Proof.
  intros Hok Hp.
  destruct (update_user_ok_accepted _ _ _ _ Hok) as [Hemail Hacc].
  rewrite (update_user_accepted _ _ Hemail Hacc) in Hok.
  destruct (find_one (user_email_is (email user)) (users_collection s))
    as [doc|] eqn:Hfind.
  - apply find_one_first in Hfind as (pre & post & Hs & Hq & Hpre).
    rewrite Hs, (update_one_first _ _ _ _ post doc Hpre Hq) in Hok.
    destruct (user_fields_eqb _ _); simpl in Hok; [discriminate|].
    injection Hok as _ <-.
    eexists. apply login_finds.
    + simpl. rewrite (find_one_app_skip _ _ _ Hpre).
      unfold find_one, user_email_is. simpl. rewrite str_eqb_refl.
      reflexivity.
    + destruct Hacc as [_ Hpw]. rewrite Hp in Hpw. simpl. rewrite Hp.
      destruct (pwd_hash (salt e) p) as [hashed|] eqn:Hh; [|congruence].
      eapply verify_own_hash. exact Hh.
  - pose proof (proj1 (find_one_none _ _) Hfind) as Hnone.
    rewrite (update_one_none _ _ _ _ Hnone) in Hok. discriminate.
Qed.

End AccountRoundTrips.

(* ================================================================= *)
(** ** The further properties at the sample data *)

Section FurtherSearchSamples.

#[local] Existing Instance latin1.

Lemma search_wraps_error_payload_witness :
  Search.get_all_recipes Samples.plain_list_literal Search.NoFile
  = Search.Returns (Search.Response Samples.not_found_payload) /\
  Search.search Samples.plain_list_literal (py "soup") Search.NoFile
  = Search.Returns (Search.Results
      (Search.Response Samples.not_found_payload)).
Proof.
  split; [reflexivity|].
  refine (proj1 (proj2 (@search_wraps_error_payload latin1
            Samples.plain_list_literal Search.NoFile
            Samples.not_found_payload eq_refl)) (py "soup") _).
  discriminate.
Defined.

Lemma search_depends_on_word_set_witness :
  (forall w, In w (split (lower (py "Soup  chicken"))) <->
             In w (split (lower (py "CHICKEN soup chicken")))) /\
  Search.search Samples.plain_list_literal (py "Soup  chicken")
    (Search.Table [Samples.soup; Samples.salad])
  = Search.search Samples.plain_list_literal (py "CHICKEN soup chicken")
      (Search.Table [Samples.soup; Samples.salad]).
Proof.
  assert (H : forall w, In w (split (lower (py "Soup  chicken"))) <->
                        In w (split (lower (py "CHICKEN soup chicken")))).
  { intro w.
    change (split (lower (py "Soup  chicken")))
      with [py "soup"; py "chicken"].
    change (split (lower (py "CHICKEN soup chicken")))
      with [py "chicken"; py "soup"; py "chicken"].
    simpl In. tauto. }
  split; [exact H|].
  refine (@search_depends_on_word_set latin1 Samples.plain_list_literal
            (py "Soup  chicken") (py "CHICKEN soup chicken")
            (Search.Table [Samples.soup; Samples.salad]) _ _ H);
    discriminate.
Defined.

Lemma search_more_words_narrows_witness :
  LowerSplit latin1 /\ isspace 32%N = true /\
  exists found,
    Search.search Samples.plain_list_literal (py "chicken")
      (Search.Table [Samples.soup; Samples.salad])
    = Search.Returns (Search.Results (Search.Recipes found)) /\
    Search.search Samples.plain_list_literal (py "chicken soup")
      (Search.Table [Samples.soup; Samples.salad])
    = Search.Returns (Search.Results (Search.Recipes
        (filter (Search.name_filter (set (split (lower (py "soup")))))
                found))).
Proof.
  split; [exact latin1_lower_split|]. split; [reflexivity|].
  destruct (@search_more_words_narrows latin1 Samples.plain_list_literal
              latin1_lower_split (py "chicken") (py "soup") 32%N
              (Search.Table [Samples.soup; Samples.salad])
              [Samples.soup_recipe; Samples.salad_recipe])
    as (found & H1 & H2 & _); [discriminate | reflexivity | reflexivity|].
  exists found. split; [exact H1 | exact H2].
Defined.

Lemma search_by_ingredients_narrows_witness :
  exists found,
    Search.search_by_ingredients Samples.plain_list_literal [py "chicken"]
      (Search.Table [Samples.soup; Samples.salad])
    = Search.Returns (Search.Results (Search.Recipes found)) /\
    Search.search_by_ingredients Samples.plain_list_literal
      [py "chicken"; py "salt"]
      (Search.Table [Samples.soup; Samples.salad])
    = Search.Returns (Search.Results (Search.Recipes
        (filter (Search.ingredient_filter (map lower [py "salt"])) found))).
Proof.
  destruct (@search_by_ingredients_narrows latin1
              Samples.plain_list_literal
              [py "chicken"] [py "salt"]
              (Search.Table [Samples.soup; Samples.salad])
              [Samples.soup_recipe; Samples.salad_recipe])
    as (found & H1 & H2 & _); [discriminate | reflexivity|].
  exists found. split; [exact H1 | exact H2].
Defined.

End FurtherSearchSamples.

Lemma request_touches_only_caller_witness :
  Spec.favorites_of_others (py "ann@example.org")
    (snd (Account.route (Samples.quiet 1000 "s" 9)
            (Account.DELETE_users_delete_account Samples.ann_token)
            Samples.ann_with_pie))
  = [Samples.pie_doc 2 (py "bob@example.org")].
Proof.
  exact (proj2 (@request_touches_only_caller Samples.toy_libs
                  (Samples.quiet 1000 "s" 9)
                  (Account.DELETE_users_delete_account Samples.ann_token)
                  Samples.ann_with_pie Samples.ann_token
                  (Account.serialize_document Samples.ann_doc)
                  eq_refl eq_refl)).
Defined.

Lemma unauthenticated_request_refused_witness :
  Account.route (Samples.quiet 1000 "s" 9)
    (Account.DELETE_users_delete_account Samples.forged_token)
    Samples.ann_with_pie
  = (Account.Raise (Account.HTTPException 401 (py "Invalid token")),
     Samples.ann_with_pie).
Proof.
  exact (proj1 (@unauthenticated_request_refused Samples.toy_libs
                  (Samples.quiet 1000 "s" 9)
                  (Account.DELETE_users_delete_account Samples.forged_token)
                  Samples.ann_with_pie Samples.forged_token
                  (Account.HTTPException 401 (py "Invalid token"))
                  eq_refl eq_refl)).
Defined.

Lemma toy_password_laws : Account.PasswordLaws Samples.toy_libs.
Proof.
  constructor. intros s p h. simpl.
  unfold Samples.toy_verify, Samples.toy_hash, Samples.toy_digest.
  destruct (Samples.has_nul p); [discriminate|]. intros [= <-].
  now rewrite str_eqb_refl.
Qed.

Lemma toy_expiry_law : Account.ExpiryLaw Samples.toy_libs.
Proof.
  constructor. intros p e now He Hlt. simpl.
  unfold Samples.toy_decode. simpl. rewrite He.
  apply Z.leb_gt in Hlt. now rewrite Hlt.
Qed.

Lemma sign_up_then_login_witness :
  Account.PasswordLaws Samples.toy_libs /\
  Account.create_user (Samples.quiet 0 "s" 7) Samples.ann Account.empty_db
  = (Account.Ok (py "User created successfully"), Samples.ann_only) /\
  exists token,
    Account.login_for_access_token (Samples.quiet 1000 "t" 9)
      {| Account.form_username := py "ann@example.org";
         Account.form_password := py "secret" |} Samples.ann_only
    = (Account.Ok {| Account.access_token := token;
                     Account.token_type := py "bearer" |},
       Samples.ann_only).
Proof.
  split; [exact toy_password_laws|]. split; [reflexivity|].
  exact (proj2 (@sign_up_then_login Samples.toy_libs toy_password_laws
                  (Samples.quiet 0 "s" 7) (Samples.quiet 1000 "t" 9)
                  Samples.ann (py "secret")
                  (py "User created successfully")
                  Account.empty_db Samples.ann_only eq_refl eq_refl)).
Defined.

Lemma login_then_authenticate_witness :
  Account.LibsLaws Samples.toy_libs /\
  exists t,
    Account.login_for_access_token (Samples.quiet 1000 "s" 1)
      {| Account.form_username := py "ann@example.org";
         Account.form_password := py "secret" |} Samples.ann_only
    = (Account.Ok t, Samples.ann_only) /\
    Account.get_current_user (Samples.quiet 2800 "s" 1)
      (Account.access_token t) Samples.ann_only
    = (Account.Ok (Account.serialize_document Samples.ann_doc),
       Samples.ann_only).
Proof.
  split; [exact toy_laws|]. eexists. split; [reflexivity|].
  refine (@login_then_authenticate Samples.toy_libs toy_laws
            (Samples.quiet 1000 "s" 1) (Samples.quiet 2800 "s" 1)
            {| Account.form_username := py "ann@example.org";
               Account.form_password := py "secret" |}
            Samples.ann_only Samples.ann_only Samples.ann_only _
            Samples.ann_doc eq_refl _ _ _).
  - discriminate.
  - discriminate.
  - apply find_one_first. reflexivity.
Defined.

Lemma login_token_expires_witness :
  Account.ExpiryLaw Samples.toy_libs /\
  exists t,
    Account.login_for_access_token (Samples.quiet 1000 "s" 1)
      {| Account.form_username := py "ann@example.org";
         Account.form_password := py "secret" |} Samples.ann_only
    = (Account.Ok t, Samples.ann_only) /\
    Account.get_current_user (Samples.quiet 2801 "s" 1)
      (Account.access_token t) Samples.ann_only
    = (Account.Raise (Account.HTTPException 401 (py "Invalid token")),
       Samples.ann_only).
Proof.
  split; [exact toy_expiry_law|]. eexists. split; [reflexivity|].
  refine (@login_token_expires Samples.toy_libs toy_expiry_law
            (Samples.quiet 1000 "s" 1) (Samples.quiet 2801 "s" 1)
            {| Account.form_username := py "ann@example.org";
               Account.form_password := py "secret" |}
            Samples.ann_only Samples.ann_only Samples.ann_only _
            eq_refl _).
  reflexivity.
Defined.

Lemma account_deletion_is_final_witness :
  Spec.users_unique Samples.ann_with_pie /\
  let s' := snd (Account.route (Samples.quiet 1000 "s" 9)
                   (Account.DELETE_users_delete_account Samples.ann_token)
                   Samples.ann_with_pie) in
  ~ Spec.registered s' (py "ann@example.org") /\
  Account.login_for_access_token (Samples.quiet 1001 "s" 9)
    {| Account.form_username := py "ann@example.org";
       Account.form_password := py "secret" |} s'
  = (Account.Raise (Account.HTTPException 401
       (py "Invalid email or password")), s') /\
  Account.get_current_user (Samples.quiet 1001 "s" 9) Samples.ann_token s'
  = (Account.Raise (Account.HTTPException 401 (py "User not found")), s').
Proof.
  assert (Hu : Spec.users_unique Samples.ann_with_pie)
    by (repeat constructor; intros []).
  split; [exact Hu|].
  destruct (@account_deletion_is_final Samples.toy_libs
              (Samples.quiet 1000 "s" 9) (Samples.quiet 1001 "s" 9)
              Samples.ann_token Samples.ann_token
              (Account.serialize_document Samples.ann_doc)
              Samples.ann_with_pie
              {| Account.form_username := py "ann@example.org";
                 Account.form_password := py "secret" |}
              (Samples.claims Samples.ann_token)
              Hu eq_refl eq_refl eq_refl eq_refl)
    as (_ & Hgone & _ & Hlogin & Hauth).
  split; [exact Hgone|]. split; [exact Hlogin | exact Hauth].
Defined.

Lemma add_then_list_witness :
  Account.fav_name Samples.pie <> [] /\
  ~ Spec.has_favorite Samples.ann_only (py "ann@example.org") (py "Pie") /\
  Account.get_user_recipes (Some (py "Pie"))
    (Account.serialize_document Samples.ann_doc)
    (snd (Account.add_favorite_recipe (Samples.quiet 1000 "s" 3)
            Samples.pie (Account.serialize_document Samples.ann_doc)
            Samples.ann_only))
  = (Account.Ok [Account.serialize_document
                   (Samples.pie_doc 3 (py "ann@example.org"))],
     snd (Account.add_favorite_recipe (Samples.quiet 1000 "s" 3)
            Samples.pie (Account.serialize_document Samples.ann_doc)
            Samples.ann_only)).
Proof.
  assert (Hname : Account.fav_name Samples.pie <> []) by discriminate.
  assert (Hnew : ~ Spec.has_favorite Samples.ann_only
                   (py "ann@example.org") (py "Pie"))
    by (intros (d & [] & _)).
  split; [exact Hname|]. split; [exact Hnew|].
  exact (@add_then_list Samples.toy_libs (Samples.quiet 1000 "s" 3)
           Samples.pie (Account.serialize_document Samples.ann_doc)
           Samples.ann_only Hname Hnew).
Defined.

Lemma update_user_checks_image_witness :
  Account.update_user (Samples.quiet 1000 "s" 1) Samples.anna
    (Account.serialize_document Samples.ann_doc) Samples.ann_only
  = (Account.Raise (Account.HTTPException 400
       (py "Provided image URL is not accessible")), Samples.ann_only) /\
  Account.update_user (Samples.broken 1000 "s" 1) Samples.anna
    (Account.serialize_document Samples.ann_doc) Samples.ann_only
  = (Account.Raise Account.FetchError, Samples.ann_only).
Proof.
  assert (Hne : py "http://img/a.png" <> []) by discriminate.
  split.
  - refine (proj1 (@update_user_checks_image Samples.toy_libs
                     (Samples.quiet 1000 "s" 1) Samples.anna
                     (Account.serialize_document Samples.ann_doc)
                     Samples.ann_only (py "http://img/a.png")
                     eq_refl eq_refl Hne) _ _).
    + discriminate.
    + intros (response & content_type & H & _). discriminate H.
  - exact (proj2 (@update_user_checks_image Samples.toy_libs
                    (Samples.broken 1000 "s" 1) Samples.anna
                    (Account.serialize_document Samples.ann_doc)
                    Samples.ann_only (py "http://img/a.png")
                    eq_refl eq_refl Hne) eq_refl).
Defined.

Lemma update_password_then_login_witness :
  Account.PasswordLaws Samples.toy_libs /\
  exists s' token,
    Account.update_user (Samples.quiet 1000 "t" 1) Samples.ann_rekeyed
      (Account.serialize_document Samples.ann_doc) Samples.ann_only
    = (Account.Ok (py "Profile updated successfully"), s') /\
    Account.login_for_access_token (Samples.quiet 1001 "s" 1)
      {| Account.form_username := py "ann@example.org";
         Account.form_password := py "hunter2" |} s'
    = (Account.Ok {| Account.access_token := token;
                     Account.token_type := py "bearer" |}, s').
Proof.
  split; [exact toy_password_laws|]. eexists.
  assert (Hup : Account.update_user (Samples.quiet 1000 "t" 1)
                  Samples.ann_rekeyed
                  (Account.serialize_document Samples.ann_doc)
                  Samples.ann_only
                = (Account.Ok (py "Profile updated successfully"),
                   snd (Account.update_user (Samples.quiet 1000 "t" 1)
                          Samples.ann_rekeyed
                          (Account.serialize_document Samples.ann_doc)
                          Samples.ann_only)))
    by reflexivity.
  destruct (@update_password_then_login Samples.toy_libs toy_password_laws
              (Samples.quiet 1000 "t" 1) (Samples.quiet 1001 "s" 1)
              Samples.ann_rekeyed
              (Account.serialize_document Samples.ann_doc)
              Samples.ann_only _ _ (py "hunter2") Hup eq_refl)
    as [token Hlogin].
  exists token. split; [exact Hup | exact Hlogin].
Defined.
